(** * High-court order-portal crawler: model of [main.py] and its properties

    The crawler enumerates case numbers per (year, case type), resolves each
    case page, extracts the order rows with a pool of five workers, downloads
    and archives the order documents and stores each resolved case.

    The embedding follows [main.py] function by function.  Python values are
    modelled as follows:
    - [str] as [string], one [ascii] per code point (Latin-1 range);
    - [dict] as [gmap string _], so that "key absent" and "key maps to
      [None]" are different things, as they are in Python;
    - exceptions as an error result, local files as a finite map from path
      to contents that every function threads through;
    - what the network and the archive answer is an explicit argument (the
      "world" of a call). *)

From Stdlib Require Import ZArith Ascii String List Lia.
From stdpp Require Import base option list strings gmap pretty.

Local Open Scope string_scope.

(** ** Python strings *)

Module PyStr.

(** [str.isspace] on the code points below 256. *)
Definition isspace (c : ascii) : bool :=
  let n := nat_of_ascii c in
  (((9 <=? n) && (n <=? 13)) || ((28 <=? n) && (n <=? 32))
   || (n =? 133) || (n =? 160))%nat.

Fixpoint lstrip (s : string) : string :=
  match s with
  | String c s' => if isspace c then lstrip s' else s
  | EmptyString => EmptyString
  end.

Definition rstrip (s : string) : string :=
  String.rev (lstrip (String.rev s)).

(** [s.strip()] *)
Definition strip (s : string) : string := rstrip (lstrip s).

(** [s.split(sep)] for a one-character separator: never the empty list. *)
Fixpoint split (sep : ascii) (s : string) : list string :=
  match s with
  | EmptyString => [EmptyString]
  | String c s' =>
      if Ascii.eqb c sep then EmptyString :: split sep s'
      else match split sep s' with
           | piece :: pieces => String c piece :: pieces
           | [] => [String c EmptyString]
           end
  end.

(** [s.replace(old, new)] for one-character [old] and [new]. *)
Fixpoint replace (old new : ascii) (s : string) : string :=
  match s with
  | EmptyString => EmptyString
  | String c s' =>
      String (if Ascii.eqb c old then new else c) (replace old new s')
  end.

(** Truth value of a string: non-empty. *)
Definition truthy (s : string) : bool :=
  match s with EmptyString => false | String _ _ => true end.

Definition nbsp : ascii := ascii_of_nat 160.
Definition apostrophe : ascii := ascii_of_nat 39.
Definition space : ascii := ascii_of_nat 32.

(** [str(n)] for an [int]. *)
Definition of_nat (n : nat) : string := pretty n.
Definition of_Z (z : Z) : string := pretty z.

End PyStr.

(** ** Exceptions, local files and the effect monad *)

(** The exception classes that the code can meet: [RequestException] is what
    [requests] raises for transport errors, time-outs, bad statuses and
    broken streams; [IndexError], [TypeError] and [OSError] come from the
    interpreter; [AzureError] from the storage client; [CancelledError] is
    what a future that never ran gives to [result()]. *)
Inductive exn : Type :=
| RequestException
| IndexError
| TypeError
| OSError
| AzureError
| CancelledError.

Global Instance exn_eq_dec : EqDecision exn.
Proof. solve_decision. Defined.

Inductive result (A : Type) : Type :=
| Ok (a : A)
| Raise (e : exn).
Arguments Ok {A} a.
Arguments Raise {A} e.

(** The local file system: path to file contents. *)
Abbreviation FS := (gmap string string).

(** A computation reads and writes local files and returns or raises; the
    file system survives an exception. *)
Definition M (A : Type) : Type := FS -> result A * FS.

Definition ret {A} (a : A) : M A := fun fs => (Ok a, fs).

Definition raise {A} (e : exn) : M A := fun fs => (Raise e, fs).

Definition bind {A B} (m : M A) (k : A -> M B) : M B :=
  fun fs =>
    match m fs with
    | (Ok a, fs') => k a fs'
    | (Raise e, fs') => (Raise e, fs')
    end.

(** [try: m  except RequestException: handler] *)
Definition try_except_RequestException {A} (m : M A) (handler : M A) : M A :=
  fun fs =>
    match m fs with
    | (Raise RequestException, fs') => handler fs'
    | other => other
    end.

(** [try: m  except Exception: handler] *)
Definition try_except_Exception {A} (m : M A) (handler : M A) : M A :=
  fun fs =>
    match m fs with
    | (Raise _, fs') => handler fs'
    | other => other
    end.

Notation "'let*' x := m 'in' k" := (bind m (fun x => k))
  (at level 10, x name, m at level 100, k at level 200,
   format "'[v' 'let*'  x  :=  m  'in' '/' k ']'").

(** [l[i]] on a Python list. *)
Definition index {A} (l : list A) (i : nat) : M A :=
  match l !! i with
  | Some a => ret a
  | None => raise IndexError
  end.

(** File primitives. *)
Definition open_wb (path : string) : M unit :=
  fun fs => (Ok tt, <[path := EmptyString]> fs).

Definition write (path : string) (chunk : string) : M unit :=
  fun fs => (Ok tt, <[path := (default EmptyString (fs !! path) ++ chunk)%string]> fs).

Definition path_exists (path : string) : M bool :=
  fun fs => (Ok (bool_decide (is_Some (fs !! path))), fs).

Definition remove (path : string) : M unit :=
  fun fs => (Ok tt, delete path fs).

(** ** The upstream's answers *)

(** The body of a streamed response as [iter_content] delivers it: chunks,
    then either the end of the body or a broken connection. *)
Inductive Stream : Type :=
| Eof
| Broken
| Chunk (chunk : string) (rest : Stream).

(** What [sess.post(.../GetFile.do, stream=True, timeout=30)] does. *)
Inductive FileResponse : Type :=
| FileTransportError
| FileHttp (status_ok : bool) (body : Stream).

(** One call of the extractor sees: the name [uuid4] draws, the portal's
    answer to the file request, and the archive's answer to the upload
    ([Some url], or [None] when the storage call raises). *)
Record RowWorld : Type := {
  uuid_hex : string;
  file_response : FileResponse;
  blob_url : option string;
}.

(** ** The parsed page *)

(** [cell.find("a")] and its [onclick] attribute. *)
Record Anchor : Type := { onclick : option string }.

(** A [td]: its [.text] and its first anchor. *)
Record Td : Type := { td_text : string; td_a : option Anchor }.

(** A [tr]: [row.find_all("td")]. *)
Record Tr : Type := { tds : list Td }.

(** An [h5]: its [.text] and the [.text] of its [span]s. *)
Record H5 : Type := { h5_text : string; h5_spans : list string }.

(** The soup of a case page: [find_all("h5")] and, when [find("table")]
    finds one, its [find_all("tr")]. *)
Record Soup : Type := { h5s : list H5; table : option (list Tr) }.

(** ** Records *)

(** A value of an order record: a string or [None]. *)
Inductive pyval : Type :=
| PStr (s : string)
| PNone.

Global Instance pyval_eq_dec : EqDecision pyval.
Proof. solve_decision. Defined.

(** A value of a case record. *)
Inductive value : Type :=
| VStr (s : string)
| VList (orders : list (gmap string pyval)).

Global Instance value_eq_dec : EqDecision value.
Proof. solve_decision. Defined.

(** ** Project setup *)

Definition PDF_DIR : string := "pdf".

Definition FROM_YEAR : Z := 2023.

Definition REQUIRED_CASE_TYPES : list string :=
  [ "RFA(OS)(COMM)"; "FAO(OS) (COMM)"; "EFA(OS)  (COMM)"; "EFA(COMM)";
    "RFA(COMM)"; "FAO(COMM)"; "CS(COMM)"; "O.M.P.(I) (COMM.)";
    "O.M.P. (E) (COMM.)"; "O.M.P. (J) (COMM.)"; "O.M.P. (T) (COMM.)";
    "O.M.P. (COMM)"; "ARB. A. (COMM.)"; "C.O. (COMM.IPD-TM)";
    "C.O.(COMM.IPD-CR)"; "C.O.(COMM.IPD-PAT)"; "C.A.(COMM.IPD-GI)";
    "C.A.(COMM.IPD-PAT)"; "C.A.(COMM.IPD-PV)"; "C.A.(COMM.IPD-TM)" ].

(** ** [upload_pdf_to_azure]

    The whole body runs under [except Exception], so the call returns the
    blob's URL or [None] and never raises.  The archive is an external
    sink: its answer comes from the world.  [open(file_path, "rb")] needs
    the local file. *)
Definition upload_pdf_to_azure (w : RowWorld) (file_path : string)
  : M (option string) :=
  try_except_Exception
    (fun fs =>
       match fs !! file_path with
       | None => (Raise OSError, fs)
       | Some _ =>
           match blob_url w with
           | Some url => (Ok (Some url), fs)
           | None => (Raise AzureError, fs)
           end
       end)
    (ret None).

(** ** [clean_up]

    [os.path.exists(None)] raises [TypeError]: [os.stat] rejects [None] and
    [exists] only absorbs [OSError] and [ValueError].  The local files are
    regular files only: a path that names a directory, on which
    [os.remove] raises, is outside the model. *)
Definition clean_up (path : option string) : M unit :=
  match path with
  | None => raise TypeError
  | Some p =>
      let* found := path_exists p in
      if found then remove p else ret tt
  end.

(** ** [download_pdf]

    Local file operations themselves ([makedirs], [open], [write]) are taken
    to succeed; directories are not modelled.  What can fail is the
    request, its status, and the stream. *)

(** The loop over [resp.iter_content]: a broken stream raises inside it. *)
Fixpoint write_chunks (file_path : string) (body : Stream) : M unit :=
  match body with
  | Eof => ret tt
  | Broken => raise RequestException
  | Chunk chunk rest =>
      let* _ := if PyStr.truthy chunk then write file_path chunk else ret tt in
      write_chunks file_path rest
  end.

Definition download_pdf (w : RowWorld) (pdf_url : string) : M (option string) :=
  try_except_RequestException
    (let file_path := (PDF_DIR ++ "/" ++ uuid_hex w ++ ".pdf")%string in
     let* body := match file_response w with
                  | FileTransportError => raise RequestException
                  | FileHttp false _ => raise RequestException
                  | FileHttp true body => ret body
                  end in
     let* _ := open_wb file_path in
     let* _ := write_chunks file_path body in
     ret (Some file_path))
    (ret None).

(** ** [parse_order_row] *)

(** The test [pdf_link and pdf_link.get("onclick")]: the anchor exists (a
    tag is always true) and carries a non-empty [onclick]. *)
Definition trigger (cell : Td) : option string :=
  match td_a cell with
  | Some pdf_link =>
      match onclick pdf_link with
      | Some action => if PyStr.truthy action then Some action else None
      | None => None
      end
  | None => None
  end.

Definition parse_order_row (w : RowWorld) (row : Tr) : M (gmap string pyval) :=
  let cells := tds row in
  let* c0 := index cells 0 in
  let* c1 := index cells 1 in
  let* c2 := index cells 2 in
  let* c3 := index cells 3 in
  let* c4 := index cells 4 in
  let temp : gmap string pyval :=
    {[ "snumber" := PStr (PyStr.strip (td_text c0));
       "case_number" := PStr (PyStr.strip (td_text c1));
       "date_of_order" := PStr (PyStr.strip (td_text c2));
       "corrigenda_link" := PStr (PyStr.strip (td_text c3));
       "hindi_order" := PStr (PyStr.strip (td_text c4)) ]} in
  match trigger c1 with
  | Some action =>
      let* pdf_path := index (PyStr.split PyStr.apostrophe action) 1 in
      let* downloaded_file_path := download_pdf w pdf_path in
      let* temp :=
        match downloaded_file_path with
        | Some path =>
            if PyStr.truthy path then
              let* url := upload_pdf_to_azure w path in
              ret (<["url" := from_option PStr PNone url]> temp)
            else ret temp
        | None => ret temp
        end in
      let* _ := clean_up downloaded_file_path in
      ret temp
  | None => ret (<["url" := PNone]> temp)
  end.

(** ** [ThreadPoolExecutor(max_workers=5)] and [executor.map] *)

Definition max_workers : nat := 5.

(** A submitted call: not yet run, or finished with a value or an
    exception. *)
Inductive Future (A : Type) : Type :=
| Pending
| Done (r : result A).
Arguments Pending {A}.
Arguments Done {A} r.

(** The pool works off the queue of submitted calls.  The calls in flight
    are the first [max_workers] unfinished ones; [completion] says, step by
    step, which of them finishes next (taken modulo the number in flight, so
    every list is a completion order; a missing entry means the oldest).
    The call that finishes stores its outcome in the future with its own
    index.  A call takes effect on the local files when it finishes.  Every
    submitted call is run: that [executor.map] cancels the calls not yet
    started once an earlier result has raised is not modelled, which only
    bears on the local files left by a lookup that raises. *)
Fixpoint pool_run {A} (steps : nat) (completion : list nat)
    (queue : list (nat * M A)) (futures : list (Future A))
  : FS -> list (Future A) * FS :=
  fun fs =>
    match steps with
    | O => (futures, fs)
    | S steps' =>
        let in_flight := Nat.min max_workers (length queue) in
        let k := hd 0%nat completion `mod` in_flight in
        match queue !! k with
        | None => (futures, fs)
        | Some (i, call) =>
            let '(r, fs') := call fs in
            pool_run steps' (tl completion) (delete k queue)
                     (<[i := Done r]> futures) fs'
        end
    end.

(** [list(...)] over the result iterator: the futures are read in
    submission order; the first one that holds an exception raises it. *)
Fixpoint results {A} (futures : list (Future A)) : result (list A) :=
  match futures with
  | [] => Ok []
  | Done (Ok a) :: rest =>
      match results rest with
      | Ok l => Ok (a :: l)
      | Raise e => Raise e
      end
  | Done (Raise e) :: _ => Raise e
  | Pending :: _ => Raise CancelledError
  end.

(** [list(executor.map(fn, iterable))]; [fn] gets the position of its item
    so that it can be given the world of that call. *)
Definition executor_map {A B} (fn : nat -> A -> M B) (iterable : list A)
    (completion : list nat) : M (list B) :=
  fun fs =>
    let queue := imap (fun i item => (i, fn i item)) iterable in
    let '(futures, fs') :=
      pool_run (length iterable) completion queue
               (replicate (length iterable) Pending) fs in
    (results futures, fs').

(** ** [get_case_details] *)

(** What [sess.post(.../casetype1.do, timeout=30)] does. *)
Inductive PageResponse : Type :=
| PageTransportError
| PageHttp (status_ok : bool) (soup : Soup).

(** One case lookup sees: the portal's answer, the world of each row's
    extraction, and the order in which the extractions finish. *)
Record CaseWorld : Type := {
  page_response : PageResponse;
  row_world : nat -> RowWorld;
  completion_order : list nat;
}.

(** The upstream as a whole: form fields [ctype], [regno], [regyr],
    [japtcha] to what happens. *)
Definition Net : Type := string -> string -> string -> string -> CaseWorld.

Definition get_case_details (net : Net) (ctype regno regyr japtcha : string)
  : M (option (gmap string value)) :=
  let w := net ctype regno regyr japtcha in
  try_except_RequestException
    (let* soup := match page_response w with
                  | PageTransportError => raise RequestException
                  | PageHttp false _ => raise RequestException
                  | PageHttp true soup => ret soup
                  end in
     let all_heading := h5s soup in
     if (length all_heading <? 2)%nat then ret None
     else
       let* h0 := index all_heading 0 in
       let data : gmap string value :=
         {[ "parties" := VStr (PyStr.replace PyStr.nbsp PyStr.space
                                 (PyStr.strip (h5_text h0)));
            "status" := VStr "";
            "next_date" := VStr "";
            "orders" := VList [] ]} in
       let* h1 := index all_heading 1 in
       let rows := h5_spans h1 in
       let* data :=
         if (2 <=? length rows)%nat then
           let* r0 := index rows 0 in
           let* r1 := index rows 1 in
           ret (<["next_date" := VStr (PyStr.strip r1)]>
                  (<["status" := VStr (PyStr.strip r0)]> data))
         else ret data in
       let* data :=
         match table soup with
         | Some trs =>
             let* orders :=
               executor_map (fun i row => parse_order_row (row_world w i) row)
                            (drop 1 trs) (completion_order w) in
             ret (<["orders" := VList orders]> data)
         | None => ret data
         end in
       ret (Some data))
    (ret None).

(** ** The enumeration ([__main__]) *)

(** The document store: the records given to [insert_one], oldest first. *)
Abbreviation Mongo := (list (gmap string value)).

Definition save_to_mongodb (data : gmap string value) (collection : Mongo)
  : Mongo := collection ++ [data].

(** The loop variables: [FROM_YEAR], the [for] loop's current case type and
    the types it still has to visit, [case_no], [continuous_no_case]. *)
Record Cursor : Type := {
  year : Z;
  case_type : string;
  later_types : list string;
  case_no : nat;
  continuous_no_case : nat;
}.

(** The crawl is about to probe a case, has left the outer loop, or has
    died of an exception that nothing caught. *)
Inductive Crawl : Type :=
| Probing (c : Cursor) (fs : FS) (collection : Mongo)
| Finished (fs : FS) (collection : Mongo)
| Crashed (e : exn) (fs : FS) (collection : Mongo).

(** [not result] for an optional record: [None] and the empty dict. *)
Definition falsy (r : option (gmap string value)) : bool :=
  match r with
  | None => true
  | Some data => bool_decide (data = ∅)
  end.

(** [f"{case_type}/{case_no}/{FROM_YEAR}"] *)
Definition case_info (c : Cursor) : string :=
  case_type c ++ "/" ++ PyStr.of_nat (case_no c) ++ "/" ++ PyStr.of_Z (year c).

Section Driver.

(** The catalog the [for] loop walks, the resolver the inner loop calls
    (in [main.py]: [REQUIRED_CASE_TYPES] and [get_case_details] on the
    live session) and the captcha text. *)
Variable catalog : list string.
Variable resolve : string -> string -> string -> string ->
                   M (option (gmap string value)).
Variable captcha_code : string.

(** The test of [while FROM_YEAR >= 2000] followed by the start of the
    [for] loop.  With an empty catalog the loops only count the years
    down, which leaves nothing to observe. *)
Definition enter_year (y : Z) (fs : FS) (collection : Mongo) : Crawl :=
  if (2000 <=? y)%Z then
    match catalog with
    | t :: ts =>
        Probing {| year := y; case_type := t; later_types := ts;
                   case_no := 1; continuous_no_case := 0 |} fs collection
    | [] => Finished fs collection
    end
  else Finished fs collection.

(** What follows the [break]: the next case type, or the next year. *)
Definition advance (c : Cursor) (fs : FS) (collection : Mongo) : Crawl :=
  match later_types c with
  | t :: ts =>
      Probing {| year := year c; case_type := t; later_types := ts;
                 case_no := 1; continuous_no_case := 0 |} fs collection
  | [] => enter_year (year c - 1) fs collection
  end.

(** One pass through the body of [while True]. *)
Definition step (c : Cursor) (fs : FS) (collection : Mongo) : Crawl :=
  match resolve (case_type c) (PyStr.of_nat (case_no c))
                (PyStr.of_Z (year c)) captcha_code fs with
  | (Raise e, fs') => Crashed e fs' collection
  | (Ok result, fs') =>
      let '(misses, collection') :=
        match result with
        | Some data =>
            if falsy result then (S (continuous_no_case c), collection)
            else (continuous_no_case c,
                  save_to_mongodb
                    (<["case_info" := VStr (case_info c)]> data) collection)
        | None => (S (continuous_no_case c), collection)
        end in
      if (misses =? 20)%nat then advance c fs' collection'
      else Probing {| year := year c; case_type := case_type c;
                      later_types := later_types c;
                      case_no := case_no c + 1;
                      continuous_no_case := misses |} fs' collection'
  end.

Definition next (s : Crawl) : Crawl :=
  match s with
  | Probing c fs collection => step c fs collection
  | _ => s
  end.

(** The crawl after [n] probes. *)
Fixpoint run (n : nat) (s : Crawl) : Crawl :=
  match n with
  | O => s
  | S n' => run n' (next s)
  end.

(** The cases probed in the first [n] passes, in order. *)
Fixpoint probes (n : nat) (s : Crawl) : list Cursor :=
  match n, s with
  | S n', Probing c _ _ => c :: probes n' (next s)
  | _, _ => []
  end.

(** [if captcha_code: ... else: print(...)] around the loops;
    [get_captcha] gives the text or [None]. *)
Definition crawl (from_year : Z) (captcha : option string) (fs : FS)
    (collection : Mongo) : Crawl :=
  match captcha with
  | Some code =>
      if PyStr.truthy code then enter_year from_year fs collection
      else Finished fs collection
  | None => Finished fs collection
  end.

End Driver.

(** The program: the crawl of [REQUIRED_CASE_TYPES] from [FROM_YEAR] with
    [get_case_details] as resolver, observed after [n] probes. *)
Definition main (net : Net) (captcha : option string) (n : nat) (fs : FS)
    (collection : Mongo) : Crawl :=
  run REQUIRED_CASE_TYPES (get_case_details net) (default "" captcha) n
      (crawl REQUIRED_CASE_TYPES FROM_YEAR captcha fs collection).

(** ** Vocabulary of the properties *)

(** The bytes of a body that arrive before its end or its break. *)
Fixpoint received (body : Stream) : string :=
  match body with
  | Chunk chunk rest => chunk ++ received rest
  | Eof | Broken => ""
  end.

(** The stream ends in a broken connection. *)
Fixpoint breaks (body : Stream) : bool :=
  match body with
  | Eof => false
  | Broken => true
  | Chunk _ rest => breaks rest
  end.

(** The request for the file fails before any byte of the body is read:
    transport error, or a status that [raise_for_status] rejects. *)
Definition refused (r : FileResponse) : bool :=
  match r with
  | FileTransportError | FileHttp false _ => true
  | FileHttp true _ => false
  end.

(** The fetch as a whole fails. *)
Definition fetch_fails (r : FileResponse) : bool :=
  match r with
  | FileTransportError | FileHttp false _ => true
  | FileHttp true body => breaks body
  end.

(** The row's case-number cell carries a document-trigger link, and the file
    path between the first two apostrophes of its action. *)
Definition document_path (row : Tr) : option string :=
  cell ← tds row !! 1%nat;
  action ← trigger cell;
  PyStr.split PyStr.apostrophe action !! 1%nat.

Definition linked (row : Tr) : bool :=
  bool_decide (is_Some (tds row !! 1%nat ≫= trigger)).

(** The five display fields of a row, as the extractor stores them. *)
Definition display_fields (c0 c1 c2 c3 c4 : Td) : gmap string pyval :=
  {[ "snumber" := PStr (PyStr.strip (td_text c0));
     "case_number" := PStr (PyStr.strip (td_text c1));
     "date_of_order" := PStr (PyStr.strip (td_text c2));
     "corrigenda_link" := PStr (PyStr.strip (td_text c3));
     "hindi_order" := PStr (PyStr.strip (td_text c4)) ]}.

(** What the extractor returns for a row, as a value. *)
Definition extraction (w : RowWorld) (row : Tr) : result (gmap string pyval) :=
  (parse_order_row w row ∅).1.

(** The case summary that the resolver reads off the two headings: status
    and next date are taken from the second heading when it has its two
    [span]s and are left empty otherwise. *)
Definition summary (h0 h1 : H5) : gmap string value :=
  let data : gmap string value :=
    {[ "parties" := VStr (PyStr.replace PyStr.nbsp PyStr.space
                            (PyStr.strip (h5_text h0)));
       "status" := VStr "";
       "next_date" := VStr "";
       "orders" := VList [] ]} in
  match h5_spans h1 with
  | r0 :: r1 :: _ =>
      <["next_date" := VStr (PyStr.strip r1)]>
        (<["status" := VStr (PyStr.strip r0)]> data)
  | _ => data
  end.

(** The rows of the table below its header, each extracted in the world of
    its own call: the values by position, as finished futures. *)
Definition row_values (w : CaseWorld) (trs : list Tr)
  : list (Future (gmap string pyval)) :=
  imap (fun i row => Done (extraction (row_world w i) row)) (drop 1 trs).

Definition collection_of (s : Crawl) : Mongo :=
  match s with
  | Probing _ _ collection | Finished _ collection | Crashed _ _ collection =>
      collection
  end.

(** The cursor at case number [k] of type [t] in year [y], with [ts] the
    types still to come and [m] misses counted so far. *)
Definition cursor_at (y : Z) (t : string) (ts : list string) (k m : nat)
  : Cursor :=
  {| year := y; case_type := t; later_types := ts; case_no := k;
     continuous_no_case := m |}.

(** The resolver's answer to a probe counts as "no case" / as a case,
    whatever the local files are. *)
Definition miss_at
    (resolve : string -> string -> string -> string ->
               M (option (gmap string value)))
    (captcha_code : string) (t : string) (y : Z) (k : nat) : Prop :=
  forall fs, exists r fs',
    resolve t (PyStr.of_nat k) (PyStr.of_Z y) captcha_code fs = (Ok r, fs')
    /\ falsy r = true.

Definition hit_at
    (resolve : string -> string -> string -> string ->
               M (option (gmap string value)))
    (captcha_code : string) (t : string) (y : Z) (k : nat) : Prop :=
  forall fs, exists r fs',
    resolve t (PyStr.of_nat k) (PyStr.of_Z y) captcha_code fs = (Ok r, fs')
    /\ falsy r = false.

(** The resolver answers the probes of case numbers [1 .. n] of type [t]
    in year [y] as the pattern [found] of existing case numbers says. *)
Definition answers
    (resolve : string -> string -> string -> string ->
               M (option (gmap string value)))
    (captcha_code : string) (t : string) (y : Z) (found : nat -> bool)
    (n : nat) : Prop :=
  forall k, 1 <= k <= n ->
            if found k then hit_at resolve captcha_code t y k
            else miss_at resolve captcha_code t y k.

(** The number of misses among the case numbers [1 .. n], for a pattern
    [found] of existing case numbers. *)
Fixpoint misses_upto (found : nat -> bool) (n : nat) : nat :=
  match n with
  | O => O
  | S n' => misses_upto found n' + (if found n then 0 else 1)
  end.

(** The records that the first [n] probes from [s] resolve, each with the
    cursor of its probe. *)
Fixpoint resolved
    (catalog : list string)
    (resolve : string -> string -> string -> string ->
               M (option (gmap string value)))
    (captcha_code : string) (n : nat) (s : Crawl)
  : list (Cursor * gmap string value) :=
  match n, s with
  | S n', Probing c fs _ =>
      match resolve (case_type c) (PyStr.of_nat (case_no c))
                    (PyStr.of_Z (year c)) captcha_code fs with
      | (Ok (Some data), _) => if falsy (Some data) then [] else [(c, data)]
      | _ => []
      end ++ resolved catalog resolve captcha_code n'
                      (next catalog resolve captcha_code s)
  | _, _ => []
  end.

(** ** [get_captcha] and the program as a whole *)

(** What [sess.get(.../LaunchCaseWise.do, timeout=30)] does; on success, the
    [.text] of the anchor whose [onclick] is [playAudio()], if the page has
    one. *)
Inductive CaptchaResponse : Type :=
| CaptchaTransportError
| CaptchaHttp (status_ok : bool) (captcha_element : option string).

Definition get_captcha (r : CaptchaResponse) : M (option string) :=
  try_except_RequestException
    (let* captcha_element :=
       match r with
       | CaptchaTransportError => raise RequestException
       | CaptchaHttp false _ => raise RequestException
       | CaptchaHttp true captcha_element => ret captcha_element
       end in
     ret (match captcha_element with
          | Some text => Some (PyStr.strip text)
          | None => None
          end))
    (ret None).

(** The [__main__] block from its first line: the captcha is fetched, then
    the crawl runs; observed after [n] probes. *)
Definition program (r : CaptchaResponse) (net : Net) (n : nat) (fs : FS)
    (collection : Mongo) : Crawl :=
  match get_captcha r fs with
  | (Ok captcha_code, fs') => main net captcha_code n fs' collection
  | (Raise e, fs') => Crashed e fs' collection
  end.

(** ** The archive behind [upload_pdf_to_azure]

    The container as a map from blob name to contents.  Each of the calls
    to the storage service may fail; [url_of] is the URL the client reports
    for a blob name. *)
Abbreviation Archive := (gmap string string).

Record Azure : Type := {
  connects : bool;
  exists_answers : bool;
  delete_works : bool;
  upload_works : bool;
  url_of : string -> string;
}.

Definition slash : ascii := ascii_of_nat 47.

(** [file_path.split("/")[-1]] *)
Definition blob_name_of (file_path : string) : string :=
  List.last (PyStr.split slash file_path) "".

(** [upload_pdf_to_azure] with its effect on the container: the URL or
    [None], and the container afterwards.  Whatever raises inside is caught
    by [except Exception]; what was done to the container before stays
    done. *)
Definition upload_pdf_to_azure_in (az : Azure) (file_path : string) (fs : FS)
    (blobs : Archive) : option string * Archive :=
  let blob_name := blob_name_of file_path in
  if negb (connects az) then (None, blobs)
  else if negb (exists_answers az) then (None, blobs)
  else
    let deleted :=
      match blobs !! blob_name with
      | Some _ => if delete_works az then Some (delete blob_name blobs)
                  else None
      | None => Some blobs
      end in
    match deleted with
    | None => (None, blobs)
    | Some blobs1 =>
        match fs !! file_path with
        | None => (None, blobs1)
        | Some data =>
            if upload_works az
            then (Some (url_of az blob_name), <[blob_name := data]> blobs1)
            else (None, blobs1)
        end
    end.

(** ** More vocabulary *)

(** Only whitespace. *)
Fixpoint blank (s : string) : bool :=
  match s with
  | EmptyString => true
  | String c s' => PyStr.isspace c && blank s'
  end.

Definition starts_with_space (s : string) : bool :=
  match s with
  | String c _ => PyStr.isspace c
  | EmptyString => false
  end.

Definition ends_with_space (s : string) : bool :=
  starts_with_space (String.rev s).

(** The character occurs in the string. *)
Fixpoint occurs (c : ascii) (s : string) : bool :=
  match s with
  | EmptyString => false
  | String c' s' => Ascii.eqb c' c || occurs c s'
  end.

(** The path of the temporary file of a call. *)
Definition temp_path (w : RowWorld) : string :=
  (PDF_DIR ++ "/" ++ uuid_hex w ++ ".pdf")%string.

(** The body of the answer does not break off. *)
Definition stream_intact (w : RowWorld) : bool :=
  match file_response w with
  | FileHttp true body => negb (breaks body)
  | _ => true
  end.

(** The captcha answer gives a text to crawl with. *)
Definition usable (r : CaptchaResponse) : bool :=
  match r with
  | CaptchaHttp true (Some text) => negb (blank text)
  | _ => false
  end.

(** A cursor within the bounds of the crawl. *)
Definition cursor_ok (catalog : list string) (from_year : Z) (c : Cursor)
  : Prop :=
  (2000 <= year c <= from_year)%Z
  /\ (exists earlier, catalog = (earlier ++ case_type c :: later_types c)%list)
  /\ 1 <= case_no c
  /\ continuous_no_case c < case_no c
  /\ continuous_no_case c < 20.

(** Year, case type and case number of a probe. *)
Definition query_of (c : Cursor) : Z * string * nat :=
  (year c, case_type c, case_no c).

(** The years of a crawl, from the start year down to 2000. *)
Definition years_from (from_year : Z) : list Z :=
  (fun i => (from_year - Z.of_nat i)%Z)
    <$> seq 0 (Z.to_nat (from_year - 1999)).

(** Twenty case numbers for each case type of the catalog, for each year. *)
Definition sweep (catalog : list string) (from_year : Z)
  : list (Z * string * nat) :=
  y ← years_from from_year;
  t ← catalog;
  (fun k => (y, t, k)) <$> seq 1 20.



(** ** Concrete pages and worlds used to exercise the model *)

Module Scenario.

Definition td (text : string) : Td := {| td_text := text; td_a := None |}.

Definition td_link (text action : string) : Td :=
  {| td_text := text; td_a := Some {| onclick := Some action |} |}.

(** A well-formed order row with a document link. *)
Definition row_linked : Tr :=
  {| tds := [ td "1"; td_link "CS(COMM) 1/2023" "getFile('2023/cs1.pdf')";
              td "12-05-2023"; td ""; td "" ] |}.

(** A well-formed order row without a link. *)
Definition row_plain : Tr :=
  {| tds := [ td "2"; td "CS(COMM) 1/2023"; td "13-05-2023"; td "";
              td "" ] |}.

(** A row that lacks its fifth column. *)
Definition row_short : Tr :=
  {| tds := [ td "3"; td "CS(COMM) 1/2023"; td "14-05-2023"; td "" ] |}.

Definition header : Tr := {| tds := [] |}.

(** The fetch and the upload both work. *)
Definition w_ok : RowWorld :=
  {| uuid_hex := "0f3a"; file_response := FileHttp true (Chunk "%PDF-1.4" Eof);
     blob_url := Some "https://archive.example/0f3a.pdf" |}.

(** The portal refuses the connection. *)
Definition w_refused : RowWorld :=
  {| uuid_hex := "0f3b"; file_response := FileTransportError;
     blob_url := Some "https://archive.example/0f3b.pdf" |}.

(** The connection breaks after the first chunk. *)
Definition w_broken : RowWorld :=
  {| uuid_hex := "0f3c"; file_response := FileHttp true (Chunk "%PDF-1.4" Broken);
     blob_url := Some "https://archive.example/0f3c.pdf" |}.

(** The archive is unreachable. *)
Definition w_no_archive : RowWorld :=
  {| uuid_hex := "0f3d"; file_response := FileHttp true (Chunk "%PDF-1.4" Eof);
     blob_url := None |}.

Definition headings : list H5 :=
  [ {| h5_text := " A vs B "; h5_spans := [] |};
    {| h5_text := "Status"; h5_spans := ["Pending"; "12-05-2024"] |} ].

(** Two headings, the second without its status and date. *)
Definition headings_bare : list H5 :=
  [ {| h5_text := "A vs B"; h5_spans := ["Pending"] |};
    {| h5_text := "Status"; h5_spans := ["Pending"] |} ].

Definition page (hs : list H5) (t : option (list Tr)) : PageResponse :=
  PageHttp true {| h5s := hs; table := t |}.

Definition case_world (p : PageResponse) (w : RowWorld) (order : list nat)
  : CaseWorld :=
  {| page_response := p; row_world := fun _ => w; completion_order := order |}.

(** Every lookup fails in transport. *)
Definition net_down : Net :=
  fun _ _ _ _ => case_world PageTransportError w_ok [].

(** Every lookup finds a case without orders. *)
Definition net_always : Net :=
  fun _ _ _ _ => case_world (page headings None) w_ok [].

(** Only case number [h] exists. *)
Definition net_only (h : nat) : Net :=
  fun _ regno _ _ =>
    if decide (regno = PyStr.of_nat h)
    then case_world (page headings None) w_ok []
    else case_world PageTransportError w_ok [].

(** Every lookup answers with the same page and row world. *)
Definition net_page (p : PageResponse) (w : RowWorld) (order : list nat)
  : Net := fun _ _ _ _ => case_world p w order.

Definition three_rows : list Tr :=
  [header; row_linked; row_plain; row_plain].

(** A case with three orders; the calls finish third, first, second. *)
Definition net_three_rows : Net :=
  net_page (page headings (Some three_rows)) w_ok [2; 0; 0].

Definition rows_with_short : list Tr := [header; row_plain; row_short].

Definition net_short_row : Net :=
  net_page (page headings (Some rows_with_short)) w_ok [].

Definition net_bare : Net := net_page (page headings_bare None) w_ok [].

(** A case whose only order has a document that cannot be fetched. *)
Definition net_fetch_refused : Net :=
  net_page (page headings (Some [header; row_linked])) w_refused [].

End Scenario.

(** ** Strings and the effect monad *)

Lemma append_empty_r (s : string) : (s ++ "")%string = s.
Proof.
  induction s as [|c s IH]; [reflexivity|].
  change (String c (s ++ "") = String c s). now rewrite IH.
Qed.

Lemma append_assoc (s1 s2 s3 : string) :
  ((s1 ++ s2) ++ s3)%string = (s1 ++ (s2 ++ s3))%string.
Proof.
  induction s1 as [|c s1 IH]; [reflexivity|].
  change (String c ((s1 ++ s2) ++ s3) = String c (s1 ++ (s2 ++ s3))).
  now rewrite IH.
Qed.

Lemma truthy_false (s : string) : PyStr.truthy s = false -> s = "".
Proof. now destruct s. Qed.

(** ** The fetcher *)

Lemma write_chunks_spec (file_path : string) (body : Stream) :
  forall (fs : FS) (s : string),
    fs !! file_path = Some s ->
    write_chunks file_path body fs
    = (if breaks body then Raise RequestException else Ok tt,
       <[file_path := (s ++ received body)%string]> fs).
Proof.
  induction body as [| |chunk rest IH]; intros fs s Hs; simpl.
  - unfold ret. now rewrite append_empty_r, insert_id.
  - unfold raise. now rewrite append_empty_r, insert_id.
  - unfold bind. destruct (PyStr.truthy chunk) eqn:Hc.
    + unfold write. rewrite Hs. simpl.
      rewrite (IH _ (s ++ chunk)%string) by apply lookup_insert_eq.
      now rewrite insert_insert_eq, append_assoc.
    + apply truthy_false in Hc. subst chunk. unfold ret.
      now rewrite (IH _ s Hs).
Qed.

Lemma download_pdf_refused (w : RowWorld) (pdf_url : string) (fs : FS) :
  refused (file_response w) = true ->
  download_pdf w pdf_url fs = (Ok None, fs).
Proof.
  unfold download_pdf, try_except_RequestException, bind.
  destruct (file_response w) as [|[] body]; simpl; intros H;
    try discriminate; reflexivity.
Qed.

Lemma download_pdf_streamed (w : RowWorld) (pdf_url : string) (fs : FS)
    (body : Stream) :
  file_response w = FileHttp true body ->
  download_pdf w pdf_url fs
  = (if breaks body then Ok None
     else Ok (Some (PDF_DIR ++ "/" ++ uuid_hex w ++ ".pdf")%string),
     <[(PDF_DIR ++ "/" ++ uuid_hex w ++ ".pdf")%string := received body]> fs).
Proof.
  intros Hr. unfold download_pdf, try_except_RequestException, bind.
  rewrite Hr. unfold ret at 1. unfold open_wb.
  rewrite (write_chunks_spec _ body _ "") by apply lookup_insert_eq.
  rewrite insert_insert_eq. simpl.
  destruct (breaks body); reflexivity.
Qed.

(** A request that is refused (transport error or rejected status) yields
    no path and leaves the local files as they were. *)
Lemma download_pdf_refused_clean (w : RowWorld) (pdf_url : string) (fs : FS) :
  refused (file_response w) = true ->
  (download_pdf w pdf_url fs).1 = Ok None /\ (download_pdf w pdf_url fs).2 = fs.
Proof. intros H. now rewrite download_pdf_refused. Qed.

(** C8: where the code departs from the claim.  When the connection breaks
    while the body is streamed, the fetcher answers "no file" but the file
    it opened stays on disk with the bytes received so far, and its path is
    not returned, so that no caller can remove it. *)
Theorem download_pdf_broken_stream_leaves_file
    (w : RowWorld) (pdf_url : string) (fs : FS) (body : Stream) :
  file_response w = FileHttp true body ->
  breaks body = true ->
  (download_pdf w pdf_url fs).1 = Ok None
  /\ (download_pdf w pdf_url fs).2 !! (PDF_DIR ++ "/" ++ uuid_hex w ++ ".pdf")%string
     = Some (received body).
Proof.
  intros Hr Hb. rewrite (download_pdf_streamed _ _ _ _ Hr), Hb. simpl.
  split; [reflexivity | apply lookup_insert_eq].
Qed.

Lemma download_pdf_broken_stream_leaves_file_witness :
  (download_pdf Scenario.w_broken "2023/cs1.pdf" ∅).1 = Ok None
  /\ (download_pdf Scenario.w_broken "2023/cs1.pdf" ∅).2 !! "pdf/0f3c.pdf"
     = Some "%PDF-1.4".
Proof.
  apply (download_pdf_broken_stream_leaves_file
           Scenario.w_broken "2023/cs1.pdf" ∅ (Chunk "%PDF-1.4" Broken));
    reflexivity.
Defined.

(** ** The uploader and the clean-up *)

Lemma upload_pdf_to_azure_spec (w : RowWorld) (file_path : string) (fs : FS) :
  is_Some (fs !! file_path) ->
  upload_pdf_to_azure w file_path fs = (Ok (blob_url w), fs).
Proof.
  intros [s Hs]. unfold upload_pdf_to_azure, try_except_Exception.
  rewrite Hs. destruct (blob_url w); reflexivity.
Qed.

Lemma upload_pdf_to_azure_never_raises (w : RowWorld) (file_path : string)
    (fs : FS) :
  exists url, upload_pdf_to_azure w file_path fs = (Ok url, fs).
Proof.
  unfold upload_pdf_to_azure, try_except_Exception.
  destruct (fs !! file_path); [destruct (blob_url w)|]; eauto.
Qed.

Lemma clean_up_Some (p : string) (fs : FS) :
  clean_up (Some p) fs = (Ok tt, delete p fs).
Proof.
  unfold clean_up, bind, path_exists, remove, ret.
  case_bool_decide as Hp; [reflexivity|].
  rewrite delete_id; [reflexivity|].
  destruct (fs !! p) eqn:E; [|reflexivity]. exfalso. apply Hp. eauto.
Qed.

Lemma clean_up_None (fs : FS) : clean_up None fs = (Raise TypeError, fs).
Proof. reflexivity. Qed.

(** ** The order-row extractor *)

Lemma local_path_truthy (w : RowWorld) :
  PyStr.truthy (PDF_DIR ++ "/" ++ uuid_hex w ++ ".pdf")%string = true.
Proof. reflexivity. Qed.

Lemma parse_order_row_short (w : RowWorld) (row : Tr) (fs : FS) :
  length (tds row) < 5 ->
  parse_order_row w row fs = (Raise IndexError, fs).
Proof.
  unfold parse_order_row. destruct (tds row) as [|c0 [|c1 [|c2 [|c3 [|c4 l]]]]];
    simpl; intros H; try reflexivity; lia.
Qed.

(** The extractor on a row with its five columns, case by case. *)
Lemma parse_order_row_five (w : RowWorld) (row : Tr) (fs : FS)
    (c0 c1 c2 c3 c4 : Td) (l : list Td) :
  tds row = c0 :: c1 :: c2 :: c3 :: c4 :: l ->
  parse_order_row w row fs
  = match trigger c1 with
    | None => (Ok (<["url" := PNone]> (display_fields c0 c1 c2 c3 c4)), fs)
    | Some action =>
        match PyStr.split PyStr.apostrophe action !! 1%nat with
        | None => (Raise IndexError, fs)
        | Some pdf_path =>
            if fetch_fails (file_response w)
            then (Raise TypeError, (download_pdf w pdf_path fs).2)
            else (Ok (<["url" := from_option PStr PNone (blob_url w)]>
                        (display_fields c0 c1 c2 c3 c4)),
                  delete (PDF_DIR ++ "/" ++ uuid_hex w ++ ".pdf")%string
                         (download_pdf w pdf_path fs).2)
        end
    end.
Proof.
  intros Hc. unfold parse_order_row. rewrite Hc.
  change (index (c0 :: c1 :: c2 :: c3 :: c4 :: l) 0) with (ret (A:=Td) c0).
  change (index (c0 :: c1 :: c2 :: c3 :: c4 :: l) 1) with (ret (A:=Td) c1).
  change (index (c0 :: c1 :: c2 :: c3 :: c4 :: l) 2) with (ret (A:=Td) c2).
  change (index (c0 :: c1 :: c2 :: c3 :: c4 :: l) 3) with (ret (A:=Td) c3).
  change (index (c0 :: c1 :: c2 :: c3 :: c4 :: l) 4) with (ret (A:=Td) c4).
  unfold bind at 1 2 3 4 5. unfold ret at 1 2 3 4 5.
  fold (display_fields c0 c1 c2 c3 c4).
  destruct (trigger c1) as [action|]; [|reflexivity].
  unfold bind at 1. unfold index.
  destruct (PyStr.split PyStr.apostrophe action !! 1%nat) as [pdf_path|];
    [|reflexivity].
  unfold ret at 1. unfold bind at 1.
  destruct (file_response w) as [|[] body] eqn:Hr.
  - rewrite download_pdf_refused by now rewrite Hr. reflexivity.
  - rewrite (download_pdf_streamed _ _ _ _ Hr). simpl fetch_fails.
    destruct (breaks body); [reflexivity|].
    rewrite local_path_truthy. unfold bind.
    rewrite upload_pdf_to_azure_spec by (rewrite lookup_insert_eq; eauto).
    unfold ret at 1. rewrite clean_up_Some. reflexivity.
  - rewrite download_pdf_refused by now rewrite Hr. reflexivity.
Qed.

(** The extractor's return value does not depend on the local files. *)
Lemma parse_order_row_value (w : RowWorld) (row : Tr) (fs : FS) :
  (parse_order_row w row fs).1 = extraction w row.
Proof.
  unfold extraction.
  destruct (tds row) as [|c0 [|c1 [|c2 [|c3 [|c4 l]]]]] eqn:Hc;
    try (rewrite !parse_order_row_short by (rewrite Hc; simpl; lia);
         reflexivity).
  rewrite !(parse_order_row_five _ _ _ _ _ _ _ _ _ Hc).
  destruct (trigger c1); [|reflexivity].
  destruct (_ !! 1%nat); [|reflexivity].
  destruct (fetch_fails _); reflexivity.
Qed.

(** The only exceptions that leave the extractor. *)
Lemma extraction_raises (w : RowWorld) (row : Tr) (e : exn) :
  extraction w row = Raise e -> e = IndexError \/ e = TypeError.
Proof.
  unfold extraction.
  destruct (tds row) as [|c0 [|c1 [|c2 [|c3 [|c4 l]]]]] eqn:Hc;
    try (rewrite parse_order_row_short by (rewrite Hc; simpl; lia);
         simpl; intros [= <-]; now left).
  rewrite (parse_order_row_five _ _ _ _ _ _ _ _ _ Hc).
  destruct (trigger c1); [|discriminate].
  destruct (_ !! 1%nat); [|simpl; intros [= <-]; now left].
  destruct (fetch_fails _); [simpl; intros [= <-]; now right | discriminate].
Qed.

Lemma linked_five (row : Tr) (c0 c1 c2 c3 c4 : Td) (l : list Td) :
  tds row = c0 :: c1 :: c2 :: c3 :: c4 :: l ->
  linked row = bool_decide (is_Some (trigger c1)).
Proof. intros Hc. unfold linked. now rewrite Hc. Qed.

(** When the archive refuses the upload, the row still yields its record,
    whose document URL is [None], and nothing is raised. *)
Lemma parse_order_row_upload_failure (w : RowWorld) (row : Tr) (fs : FS)
    (pdf_path : string) :
  5 <= length (tds row) ->
  document_path row = Some pdf_path ->
  fetch_fails (file_response w) = false ->
  blob_url w = None ->
  exists temp, (parse_order_row w row fs).1 = Ok temp
               /\ temp !! "url" = Some PNone.
Proof.
  intros Hlen Hp Hf Hu.
  destruct (tds row) as [|c0 [|c1 [|c2 [|c3 [|c4 l]]]]] eqn:Hc;
    simpl in Hlen; try lia.
  rewrite (parse_order_row_five _ _ _ _ _ _ _ _ _ Hc).
  unfold document_path in Hp. rewrite Hc in Hp. simpl in Hp.
  destruct (trigger c1) as [action|]; [|discriminate]. simpl in Hp.
  rewrite Hp, Hf, Hu. eexists. split; [reflexivity|].
  apply lookup_insert_eq.
Qed.

(** C1: where the code departs from the claim.  For a row with a document
    link, a failed fetch makes [download_pdf] return [None], which
    [parse_order_row] hands to [clean_up]; [os.path.exists(None)] raises
    [TypeError], so the row yields no record at all. *)
Theorem parse_order_row_fetch_failure_raises
    (w : RowWorld) (row : Tr) (fs : FS) (pdf_path : string) :
  5 <= length (tds row) ->
  document_path row = Some pdf_path ->
  fetch_fails (file_response w) = true ->
  (parse_order_row w row fs).1 = Raise TypeError.
Proof.
  intros Hlen Hp Hf.
  destruct (tds row) as [|c0 [|c1 [|c2 [|c3 [|c4 l]]]]] eqn:Hc;
    simpl in Hlen; try lia.
  rewrite (parse_order_row_five _ _ _ _ _ _ _ _ _ Hc).
  unfold document_path in Hp. rewrite Hc in Hp. simpl in Hp.
  destruct (trigger c1) as [action|]; [|discriminate]. simpl in Hp.
  now rewrite Hp, Hf.
Qed.

Lemma parse_order_row_fetch_failure_raises_witness :
  (parse_order_row Scenario.w_refused Scenario.row_linked ∅).1
  = Raise TypeError.
Proof.
  apply (parse_order_row_fetch_failure_raises
           Scenario.w_refused Scenario.row_linked ∅ "2023/cs1.pdf");
    [simpl; lia | reflexivity | reflexivity].
Defined.

(** C3, as amended: in every record that the extractor produces the key
    [url] is present.  It holds a string exactly when the row is linked and
    the upload returned that string (the fetch has then succeeded), and it
    holds [None] when the row has no link or the upload failed. *)
Theorem parse_order_row_url
    (w : RowWorld) (row : Tr) (fs fs' : FS) (temp : gmap string pyval) :
  parse_order_row w row fs = (Ok temp, fs') ->
  temp !! "url"
  = Some (if linked row then from_option PStr PNone (blob_url w) else PNone)
  /\ (linked row = true -> fetch_fails (file_response w) = false).
Proof.
  intros H.
  destruct (tds row) as [|c0 [|c1 [|c2 [|c3 [|c4 l]]]]] eqn:Hc;
    try (rewrite parse_order_row_short in H by (rewrite Hc; simpl; lia);
         discriminate).
  rewrite (parse_order_row_five _ _ _ _ _ _ _ _ _ Hc) in H.
  rewrite (linked_five _ _ _ _ _ _ _ Hc).
  destruct (trigger c1) as [action|].
  - destruct (_ !! 1%nat); [|discriminate].
    destruct (fetch_fails _); [discriminate|].
    injection H as <- <-. rewrite bool_decide_true by eauto.
    split; [apply lookup_insert_eq | reflexivity].
  - injection H as <- <-. rewrite bool_decide_false by (intros [? ?]; discriminate).
    split; [apply lookup_insert_eq | discriminate].
Qed.

Lemma parse_order_row_url_witness :
  exists temp fs',
    parse_order_row Scenario.w_ok Scenario.row_linked ∅ = (Ok temp, fs')
    /\ temp !! "url" = Some (PStr "https://archive.example/0f3a.pdf").
Proof.
  eexists _, _. split; [vm_compute; reflexivity|].
  apply (parse_order_row_url Scenario.w_ok Scenario.row_linked ∅ ∅).
  vm_compute. reflexivity.
Defined.

(** C3: the claim as stated fails.  A row without a link yields a record in
    which [url] is present and holds [None]; it is not absent. *)
Lemma parse_order_row_url_absent_counterexample :
  exists temp,
    parse_order_row Scenario.w_ok Scenario.row_plain ∅ = (Ok temp, ∅)
    /\ temp !! "url" = Some PNone
    /\ temp !! "url" <> None.
Proof.
  eexists. split; [vm_compute; reflexivity|].
  split; [reflexivity | discriminate].
Qed.

(** ** The worker pool *)

Section Pool.

Context {A : Type}.

(** The value that the call with index [i] computes. *)
Variable value_of : nat -> result A.

(** When the pool stops, every future holds the outcome of the call with
    its own index, whatever the completion order was. *)
Lemma pool_run_futures (steps : nat) :
  forall (completion : list nat) (queue : list (nat * M A))
         (futures : list (Future A)) (fs : FS),
    length queue = steps ->
    NoDup queue.*1 ->
    (forall i call, (i, call) ∈ queue ->
                    i < length futures
                    /\ forall fs0, (call fs0).1 = value_of i) ->
    (forall i, i < length futures -> i ∉ queue.*1 ->
               futures !! i = Some (Done (value_of i))) ->
    length (pool_run steps completion queue futures fs).1 = length futures
    /\ forall i, i < length futures ->
         (pool_run steps completion queue futures fs).1 !! i
         = Some (Done (value_of i)).
Proof.
  induction steps as [|steps IH];
    intros completion queue futures fs Hlen Hnd Hq Hdone.
  - destruct queue; [|discriminate]. simpl. split; [reflexivity|].
    intros i Hi. apply Hdone; [exact Hi | apply not_elem_of_nil].
  - cbn [pool_run].
    set (k := hd 0 completion `mod` Nat.min max_workers (length queue)).
    assert (Hk : k < length queue).
    { subst k. rewrite Hlen. unfold max_workers.
      pose proof (Nat.mod_upper_bound (hd 0 completion)
                    (Nat.min 5 (S steps))). lia. }
    clearbody k.
    destruct (queue !! k) as [[i0 call]|] eqn:Hk0;
      [|apply lookup_ge_None in Hk0; unfold M in *; lia].
    pose proof (take_drop_middle _ _ _ Hk0) as Hsplit.
    pose proof (delete_take_drop queue k) as Hdel.
    set (l1 := take k queue) in *. set (l2 := drop (S k) queue) in *.
    assert (Hin0 : (i0, call) ∈ queue)
      by (rewrite <- Hsplit; set_solver).
    destruct (Hq _ _ Hin0) as [Hi0 Hval].
    specialize (Hval fs). destruct (call fs) as [r fs'] eqn:Hcall.
    simpl in Hval. subst r.
    rewrite <- Hsplit, fmap_app, fmap_cons in Hnd.
    apply NoDup_app in Hnd as (Hnd1 & Hnd12 & Hnd2).
    apply NoDup_cons in Hnd2 as [Hnd0 Hnd2]. simpl in *.
    destruct (IH (tl completion) (delete k queue)
                 (<[i0 := Done (value_of i0)]> futures) fs') as [IHlen IHget].
    + rewrite length_delete by eauto. lia.
    + rewrite Hdel, fmap_app. apply NoDup_app. repeat split; try done.
      intros x Hx1 Hx2. apply (Hnd12 x Hx1). set_solver.
    + intros i c Hic. rewrite length_insert. apply Hq.
      rewrite Hdel in Hic. rewrite <- Hsplit. set_solver.
    + intros i Hi Hnot. rewrite length_insert in Hi.
      destruct (decide (i = i0)) as [->|Hne].
      * now apply list_lookup_insert_eq.
      * rewrite list_lookup_insert_ne by congruence. apply Hdone; [exact Hi|].
        rewrite <- Hsplit, fmap_app, fmap_cons. simpl.
        rewrite Hdel, fmap_app in Hnot. set_solver.
    + rewrite length_insert in IHlen, IHget. split; assumption.
Qed.

End Pool.

(** [list(...)] over futures that are all done with a value. *)
Lemma results_all_ok {A B} (l : list A) :
  forall (value_of : nat -> A -> result B) (record_of : nat -> A -> B),
    (forall i a, l !! i = Some a -> value_of i a = Ok (record_of i a)) ->
    results (imap (fun i a => Done (value_of i a)) l) = Ok (imap record_of l).
Proof.
  induction l as [|a l IH]; intros value_of record_of H; [reflexivity|].
  rewrite !imap_cons. cbn [results].
  rewrite (H 0 a) by reflexivity.
  change (imap ((fun i a => Done (value_of i a)) ∘ S) l)
    with (imap (fun i a => Done ((value_of ∘ S) i a)) l).
  rewrite (IH (value_of ∘ S) (record_of ∘ S)); [reflexivity|].
  intros i b Hi. apply (H (S i) b Hi).
Qed.

(** [list(...)] raises as soon as one future holds an exception, and the
    exception it raises is one that some call raised. *)
Lemma results_some_raise {A B} (l : list A) :
  forall (value_of : nat -> A -> result B) (i : nat) (a : A) (e : exn),
    l !! i = Some a -> value_of i a = Raise e ->
    exists j b e',
      l !! j = Some b /\ value_of j b = Raise e'
      /\ results (imap (fun i a => Done (value_of i a)) l) = Raise e'.
Proof.
  induction l as [|a0 l IH]; intros value_of i a e Hi He; [discriminate|].
  rewrite imap_cons. cbn [results].
  destruct (value_of 0 a0) as [b0|e0] eqn:H0.
  - destruct i as [|i]; [simpl in Hi; congruence|].
    destruct (IH (value_of ∘ S) i a e Hi He) as (j & b & e' & Hj & Hv & Hr).
    change (imap ((fun i a => Done (value_of i a)) ∘ S) l)
      with (imap (fun i a => Done ((value_of ∘ S) i a)) l).
    exists (S j), b, e'. rewrite Hr. auto.
  - exists 0, a0, e0. auto.
Qed.

(** [executor.map] returns what the calls compute, by position. *)
Lemma executor_map_value {A B} (fn : nat -> A -> M B)
    (value_of : nat -> A -> result B) (iterable : list A)
    (completion : list nat) (fs : FS) :
  (forall i a fs0, (fn i a fs0).1 = value_of i a) ->
  (executor_map fn iterable completion fs).1
  = results (imap (fun i a => Done (value_of i a)) iterable).
Proof.
  intros Hfn. unfold executor_map.
  set (queue := imap (fun i item => (i, fn i item)) iterable).
  set (futures := replicate (length iterable) Pending).
  pose (value_at := fun i => match iterable !! i with
                             | Some a => value_of i a
                             | None => Raise CancelledError
                             end).
  destruct (pool_run_futures value_at (length iterable) completion queue
              futures fs) as [Hlen Hget].
  - subst queue. apply length_imap.
  - subst queue. rewrite fmap_imap.
    rewrite (imap_ext _ (fun i _ => i)) by reflexivity.
    rewrite imap_seq_0, list_fmap_id. apply NoDup_seq.
  - intros i call Hin. subst queue futures.
    apply list_elem_of_lookup in Hin as [j Hj].
    rewrite list_lookup_imap in Hj.
    destruct (iterable !! j) as [a|] eqn:Ha; [|discriminate].
    simpl in Hj. injection Hj as <- <-.
    rewrite length_replicate. split; [eapply lookup_lt_Some; eauto|].
    intros fs0. unfold value_at. rewrite Ha. apply Hfn.
  - intros i Hi Hnot. exfalso. apply Hnot. subst queue futures.
    rewrite length_replicate in Hi.
    destruct (lookup_lt_is_Some_2 iterable i Hi) as [a Ha].
    apply list_elem_of_fmap. exists (i, fn i a). split; [reflexivity|].
    apply list_elem_of_lookup. exists i. rewrite list_lookup_imap, Ha.
    reflexivity.
  - destruct (pool_run _ _ _ _ _) as [done_futures fs'] eqn:Hrun.
    simpl in *. f_equal. apply list_eq. intros i.
    subst futures. rewrite length_replicate in Hlen, Hget.
    rewrite list_lookup_imap.
    destruct (iterable !! i) as [a|] eqn:Ha; simpl.
    + rewrite Hget by (eapply lookup_lt_Some; eauto).
      unfold value_at. now rewrite Ha.
    + apply lookup_ge_None. apply lookup_ge_None in Ha. lia.
Qed.

(** When [list(...)] raises, one of the calls raised that exception. *)
Lemma results_raise_inv {A B} (l : list A) :
  forall (value_of : nat -> A -> result B) (e : exn),
    results (imap (fun i a => Done (value_of i a)) l) = Raise e ->
    exists i a, l !! i = Some a /\ value_of i a = Raise e.
Proof.
  induction l as [|a0 l IH]; intros value_of e; [discriminate|].
  rewrite imap_cons. cbn [results].
  change (imap ((fun i a => Done (value_of i a)) ∘ S) l)
    with (imap (fun i a => Done ((value_of ∘ S) i a)) l).
  destruct (value_of 0 a0) as [b0|e0] eqn:H0.
  - destruct (results _) eqn:Hr; [discriminate|]. intros [= <-].
    destruct (IH _ _ Hr) as (i & a & Hi & Ha). exists (S i), a. auto.
  - intros [= <-]. exists 0, a0. auto.
Qed.

(** ** The case-detail resolver *)

Section Resolver.

Variable net : Net.
Variables ctype regno regyr japtcha : string.

Let w : CaseWorld := net ctype regno regyr japtcha.

Lemma get_case_details_unreachable (fs : FS) (soup : Soup) :
  page_response w = PageTransportError
  \/ page_response w = PageHttp false soup ->
  get_case_details net ctype regno regyr japtcha fs = (Ok None, fs).
Proof.
  unfold get_case_details, try_except_RequestException, bind. fold w.
  intros [-> | ->]; reflexivity.
Qed.

Lemma get_case_details_few_headings (fs : FS) (soup : Soup) :
  page_response w = PageHttp true soup ->
  length (h5s soup) < 2 ->
  get_case_details net ctype regno regyr japtcha fs = (Ok None, fs).
Proof.
  unfold get_case_details, try_except_RequestException, bind. fold w.
  intros -> Hlen. unfold ret at 1.
  destruct (Nat.ltb_spec (length (h5s soup)) 2); [reflexivity | lia].
Qed.

(** The resolver on a page with its two headings, case by case. *)
Lemma get_case_details_page (fs : FS) (soup : Soup) (h0 h1 : H5)
    (hs : list H5) :
  page_response w = PageHttp true soup ->
  h5s soup = h0 :: h1 :: hs ->
  get_case_details net ctype regno regyr japtcha fs
  = match table soup with
    | None => (Ok (Some (summary h0 h1)), fs)
    | Some trs =>
        let fs' :=
          (executor_map (fun i row => parse_order_row (row_world w i) row)
                        (drop 1 trs) (completion_order w) fs).2 in
        match results (row_values w trs) with
        | Ok orders =>
            (Ok (Some (<["orders" := VList orders]> (summary h0 h1))), fs')
        | Raise e => (Raise e, fs')
        end
    end.
Proof.
  intros Hp Hh.
  unfold get_case_details, try_except_RequestException. fold w.
  rewrite Hp. unfold bind at 1. unfold ret at 1. rewrite Hh.
  change (length (h0 :: h1 :: hs) <? 2)%nat with false. cbv iota.
  change (index (h0 :: h1 :: hs) 0) with (ret (A:=H5) h0).
  change (index (h0 :: h1 :: hs) 1) with (ret (A:=H5) h1).
  unfold bind at 1 2. unfold ret at 1 2.
  assert (Hsum :
    (if (2 <=? length (h5_spans h1))%nat
     then let* r0 := index (h5_spans h1) 0 in
          let* r1 := index (h5_spans h1) 1 in
          ret (<["next_date" := VStr (PyStr.strip r1)]>
                 (<["status" := VStr (PyStr.strip r0)]>
                    ({[ "parties" := VStr (PyStr.replace PyStr.nbsp
                                             PyStr.space
                                             (PyStr.strip (h5_text h0)));
                        "status" := VStr "";
                        "next_date" := VStr "";
                        "orders" := VList [] ]} : gmap string value)))
     else ret ({[ "parties" := VStr (PyStr.replace PyStr.nbsp PyStr.space
                                       (PyStr.strip (h5_text h0)));
                  "status" := VStr "";
                  "next_date" := VStr "";
                  "orders" := VList [] ]} : gmap string value))
    = ret (summary h0 h1)).
  { unfold summary. destruct (h5_spans h1) as [|r0 [|r1 rs]]; reflexivity. }
  rewrite Hsum. unfold bind at 1. unfold ret at 1.
  destruct (table soup) as [trs|]; [|reflexivity].
  unfold bind. cbv zeta.
  pose proof (executor_map_value
                (fun i row => parse_order_row (row_world w i) row)
                (fun i row => extraction (row_world w i) row)
                (drop 1 trs) (completion_order w) fs
                (fun i a fs0 => parse_order_row_value _ _ _)) as Hv.
  destruct (executor_map _ _ _ fs) as [r fs'] eqn:He. simpl in Hv. subst r.
  simpl. unfold row_values.
  destruct (results _) as [orders|e] eqn:Hr; [reflexivity|].
  apply results_raise_inv in Hr as (i & row & _ & Hrow).
  apply extraction_raises in Hrow as [-> | ->]; reflexivity.
Qed.

End Resolver.

(** C2, as amended: a page whose second heading has fewer than two [span]s
    is not reported as "no case".  The resolver leaves status and next date
    empty and goes on to the order table; without a table it returns the
    record with the parties, empty status, empty next date and no orders. *)
Theorem get_case_details_bare_second_heading
    (net : Net) (ctype regno regyr japtcha : string) (fs : FS)
    (soup : Soup) (h0 h1 : H5) (hs : list H5) :
  page_response (net ctype regno regyr japtcha) = PageHttp true soup ->
  h5s soup = h0 :: h1 :: hs ->
  length (h5_spans h1) < 2 ->
  (get_case_details net ctype regno regyr japtcha fs).1 <> Ok None
  /\ (forall data,
        (get_case_details net ctype regno regyr japtcha fs).1 = Ok (Some data) ->
        data !! "status" = Some (VStr "")
        /\ data !! "next_date" = Some (VStr ""))
  /\ (table soup = None ->
      get_case_details net ctype regno regyr japtcha fs
      = (Ok (Some ({[ "parties" := VStr (PyStr.replace PyStr.nbsp PyStr.space
                                           (PyStr.strip (h5_text h0)));
                      "status" := VStr "";
                      "next_date" := VStr "";
                      "orders" := VList [] ]})), fs)).
Proof.
  intros Hp Hh Hspans.
  rewrite (get_case_details_page _ _ _ _ _ _ _ _ _ _ Hp Hh).
  assert (Hsum : summary h0 h1
                 = {[ "parties" := VStr (PyStr.replace PyStr.nbsp PyStr.space
                                           (PyStr.strip (h5_text h0)));
                      "status" := VStr "";
                      "next_date" := VStr "";
                      "orders" := VList [] ]}).
  { unfold summary. destruct (h5_spans h1) as [|r0 [|r1 rs]];
      simpl in Hspans; try reflexivity; lia. }
  rewrite Hsum.
  destruct (table soup) as [trs|].
  - cbv zeta. destruct (results _) as [orders|e]; simpl.
    + split; [discriminate|]. split; [|discriminate].
      intros data [= <-]. split; reflexivity.
    + split; [discriminate|]. split; discriminate.
  - simpl. split; [discriminate|]. split; [|reflexivity].
    intros data [= <-]. split; reflexivity.
Qed.

Lemma get_case_details_bare_second_heading_witness :
  (get_case_details
     Scenario.net_bare "CS(COMM)" "1" "2023" "7x3k" ∅).1 <> Ok None.
Proof.
  apply (get_case_details_bare_second_heading
           Scenario.net_bare "CS(COMM)" "1" "2023" "7x3k" ∅
           {| h5s := Scenario.headings_bare; table := None |}
           {| h5_text := "A vs B"; h5_spans := ["Pending"] |}
           {| h5_text := "Status"; h5_spans := ["Pending"] |} []);
    [reflexivity | reflexivity | simpl; lia].
Defined.

(** C2: the claim as stated fails.  The second heading of this page has a
    single [span], and the resolver returns a case record for it. *)
Lemma get_case_details_bare_second_heading_counterexample :
  (exists h0 h1, Scenario.headings_bare = [h0; h1]
                 /\ length (h5_spans h1) < 2)
  /\ exists data,
       get_case_details Scenario.net_bare "CS(COMM)" "1" "2023" "7x3k" ∅
       = (Ok (Some data), ∅)
       /\ data !! "parties" = Some (VStr "A vs B")
       /\ data !! "status" = Some (VStr "").
Proof.
  split.
  - eexists _, _. split; [reflexivity | simpl; lia].
  - eexists. split; [vm_compute; reflexivity|]. split; reflexivity.
Qed.

(** C7: on a page with its two headings and a table, when the extraction of
    every row below the header returns a record, the resolver returns a
    case whose [orders] has one record per such row, the record at position
    [i] being the extraction of row [i].  The completion order of the pool
    is part of [net] and is arbitrary. *)
Theorem get_case_details_orders_follow_rows
    (net : Net) (ctype regno regyr japtcha : string) (fs : FS)
    (soup : Soup) (h0 h1 : H5) (hs : list H5) (trs : list Tr) :
  page_response (net ctype regno regyr japtcha) = PageHttp true soup ->
  h5s soup = h0 :: h1 :: hs ->
  table soup = Some trs ->
  (forall i row, drop 1 trs !! i = Some row ->
     exists record,
       extraction (row_world (net ctype regno regyr japtcha) i) row
       = Ok record) ->
  exists data fs' orders,
    get_case_details net ctype regno regyr japtcha fs = (Ok (Some data), fs')
    /\ data !! "orders" = Some (VList orders)
    /\ length orders = length trs - 1
    /\ forall i row, drop 1 trs !! i = Some row ->
         exists record,
           orders !! i = Some record
           /\ extraction (row_world (net ctype regno regyr japtcha) i) row
              = Ok record.
Proof.
  intros Hp Hh Ht Hrows.
  rewrite (get_case_details_page _ _ _ _ _ _ _ _ _ _ Hp Hh), Ht. cbv zeta.
  set (w := net ctype regno regyr japtcha) in *.
  pose (record_of := fun i row =>
                       match extraction (row_world w i) row with
                       | Ok record => record
                       | Raise _ => ∅
                       end).
  unfold row_values.
  rewrite (results_all_ok _ _ record_of).
  - eexists _, _, _. split; [reflexivity|].
    split; [apply lookup_insert_eq|].
    split; [now rewrite length_imap, length_drop|].
    intros i row Hi. exists (record_of i row).
    rewrite list_lookup_imap, Hi. split; [reflexivity|].
    unfold record_of. destruct (Hrows i row Hi) as [record ->]. reflexivity.
  - intros i row Hi. unfold record_of.
    destruct (Hrows i row Hi) as [record ->]. reflexivity.
Qed.

Lemma get_case_details_orders_follow_rows_witness :
  exists data fs' orders,
    get_case_details Scenario.net_three_rows "CS(COMM)" "1" "2023" "7x3k" ∅
    = (Ok (Some data), fs')
    /\ data !! "orders" = Some (VList orders)
    /\ length orders = length Scenario.three_rows - 1
    /\ forall i row,
         drop 1 Scenario.three_rows !! i = Some row ->
         exists record,
           orders !! i = Some record
           /\ extraction
                (row_world
                   (Scenario.net_three_rows "CS(COMM)" "1" "2023" "7x3k") i)
                row
              = Ok record.
Proof.
  apply (get_case_details_orders_follow_rows
           Scenario.net_three_rows "CS(COMM)" "1" "2023" "7x3k" ∅
           {| h5s := Scenario.headings; table := Some Scenario.three_rows |}
           {| h5_text := " A vs B "; h5_spans := [] |}
           {| h5_text := "Status"; h5_spans := ["Pending"; "12-05-2024"] |}
           [] Scenario.three_rows);
    [reflexivity | reflexivity | reflexivity |].
  intros [|[|[|i]]] row Hrow; simpl in Hrow; try discriminate;
    injection Hrow as <-; eexists; vm_compute; reflexivity.
Defined.

(** C4, as amended: a row with fewer than five columns makes the extractor
    raise [IndexError].  Nothing absorbs it: the resolver catches transport
    errors only, so the case resolution raises (this exception, or the one
    of an earlier bad row) and the crawl stops at that probe. *)
Theorem short_row_stops_crawl
    (catalog : list string) (net : Net) (captcha_code : string)
    (c : Cursor) (fs : FS) (collection : Mongo)
    (soup : Soup) (h0 h1 : H5) (hs : list H5) (trs : list Tr)
    (i : nat) (row : Tr) :
  page_response (net (case_type c) (PyStr.of_nat (case_no c))
                     (PyStr.of_Z (year c)) captcha_code)
  = PageHttp true soup ->
  h5s soup = h0 :: h1 :: hs ->
  table soup = Some trs ->
  drop 1 trs !! i = Some row ->
  length (tds row) < 5 ->
  (forall w fs0, parse_order_row w row fs0 = (Raise IndexError, fs0))
  /\ exists e fs',
       (e = IndexError \/ e = TypeError)
       /\ get_case_details net (case_type c) (PyStr.of_nat (case_no c))
                           (PyStr.of_Z (year c)) captcha_code fs
          = (Raise e, fs')
       /\ step catalog (get_case_details net) captcha_code c fs collection
          = Crashed e fs' collection.
Proof.
  intros Hp Hh Ht Hi Hshort.
  split; [intros w fs0; now apply parse_order_row_short|].
  unfold step.
  rewrite (get_case_details_page _ _ _ _ _ _ _ _ _ _ Hp Hh), Ht. cbv zeta.
  set (w := net _ _ _ _) in *.
  destruct (results_some_raise (drop 1 trs)
              (fun i row => extraction (row_world w i) row)
              i row IndexError Hi) as (j & b & e & Hj & Hb & Hr).
  { unfold extraction. now rewrite parse_order_row_short. }
  unfold row_values. rewrite Hr.
  eexists e, _. split; [eapply extraction_raises; eauto|].
  split; reflexivity.
Qed.

Lemma short_row_stops_crawl_witness :
  exists e fs',
    (e = IndexError \/ e = TypeError)
    /\ get_case_details Scenario.net_short_row
         "CS(COMM)" (PyStr.of_nat 1) (PyStr.of_Z 2023) "7x3k" ∅
       = (Raise e, fs')
    /\ step REQUIRED_CASE_TYPES (get_case_details Scenario.net_short_row)
         "7x3k"
         {| year := 2023; case_type := "CS(COMM)"; later_types := [];
            case_no := 1; continuous_no_case := 0 |} ∅ []
       = Crashed e fs' [].
Proof.
  apply (short_row_stops_crawl REQUIRED_CASE_TYPES Scenario.net_short_row
           "7x3k"
           {| year := 2023; case_type := "CS(COMM)"; later_types := [];
              case_no := 1; continuous_no_case := 0 |} ∅ []
           {| h5s := Scenario.headings;
              table := Some Scenario.rows_with_short |}
           {| h5_text := " A vs B "; h5_spans := [] |}
           {| h5_text := "Status"; h5_spans := ["Pending"; "12-05-2024"] |}
           [] Scenario.rows_with_short 1 Scenario.row_short);
    [reflexivity | reflexivity | reflexivity | reflexivity | simpl; lia].
Defined.

(** C4: the claim as stated fails.  The table of this page has a row with
    four columns: the resolution of the case does not complete, and the
    crawl dies of the [IndexError] at its first probe. *)
Lemma short_row_counterexample :
  length (tds Scenario.row_short) < 5
  /\ (get_case_details Scenario.net_short_row
        "RFA(OS)(COMM)" "1" "2023" "7x3k" ∅).1 = Raise IndexError
  /\ main Scenario.net_short_row (Some "7x3k") 1 ∅ []
     = Crashed IndexError ∅ [].
Proof.
  split; [simpl; lia|]. split; vm_compute; reflexivity.
Qed.

(** A failed fetch on a whole crawl: the first case has one order whose
    document cannot be fetched, and the crawl dies of the [TypeError] at its
    first probe. *)
Example fetch_failure_stops_crawl :
  main Scenario.net_fetch_refused (Some "7x3k") 1 ∅ []
  = Crashed TypeError ∅ [].
Proof. vm_compute. reflexivity. Qed.

(** ** The enumeration *)

Section Enumeration.

Variable catalog : list string.
Variable resolve : string -> string -> string -> string ->
                   M (option (gmap string value)).
Variable captcha_code : string.

Local Abbreviation run := (run catalog resolve captcha_code).

Lemma run_S (n : nat) (s : Crawl) : run (S n) s = next catalog resolve captcha_code (run n s).
Proof.
  revert s. induction n as [|n IH]; intros s; [reflexivity|].
  change (run (S (S n)) s) with (run (S n) (next catalog resolve captcha_code s)).
  rewrite IH. reflexivity.
Qed.

Lemma run_add (a b : nat) (s : Crawl) : run (a + b) s = run b (run a s).
Proof.
  revert s. induction a as [|a IH]; intros s; [reflexivity|].
  simpl. apply IH.
Qed.

Lemma run_Finished (n : nat) (fs : FS) (collection : Mongo) :
  run n (Finished fs collection) = Finished fs collection.
Proof. induction n as [|n IH]; [reflexivity | exact IH]. Qed.

Lemma run_Crashed (n : nat) (e : exn) (fs : FS) (collection : Mongo) :
  run n (Crashed e fs collection) = Crashed e fs collection.
Proof. induction n as [|n IH]; [reflexivity | exact IH]. Qed.

Lemma collection_of_enter_year (y : Z) (fs : FS) (collection : Mongo) :
  collection_of (enter_year catalog y fs collection) = collection.
Proof.
  unfold enter_year.
  destruct (2000 <=? y)%Z; [destruct catalog|]; reflexivity.
Qed.

Lemma collection_of_advance (c : Cursor) (fs : FS) (collection : Mongo) :
  collection_of (advance catalog c fs collection) = collection.
Proof.
  unfold advance. destruct (later_types c); [|reflexivity].
  apply collection_of_enter_year.
Qed.

(** One pass of the inner loop on a miss. *)
Lemma step_miss (c : Cursor) (fs fs' : FS) (collection : Mongo)
    (r : option (gmap string value)) :
  resolve (case_type c) (PyStr.of_nat (case_no c)) (PyStr.of_Z (year c))
          captcha_code fs = (Ok r, fs') ->
  falsy r = true ->
  step catalog resolve captcha_code c fs collection
  = if (S (continuous_no_case c) =? 20)%nat
    then advance catalog c fs' collection
    else Probing (cursor_at (year c) (case_type c) (later_types c)
                            (case_no c + 1) (S (continuous_no_case c)))
                 fs' collection.
Proof.
  intros Hr Hf. unfold step. rewrite Hr.
  destruct r as [data|]; [rewrite Hf|]; reflexivity.
Qed.

(** One pass of the inner loop on a hit. *)
Lemma step_hit (c : Cursor) (fs fs' : FS) (collection : Mongo)
    (r : option (gmap string value)) :
  resolve (case_type c) (PyStr.of_nat (case_no c)) (PyStr.of_Z (year c))
          captcha_code fs = (Ok r, fs') ->
  falsy r = false ->
  exists data,
    r = Some data
    /\ step catalog resolve captcha_code c fs collection
       = let collection' :=
           (collection ++ [<["case_info" := VStr (case_info c)]> data])%list in
         if (continuous_no_case c =? 20)%nat
         then advance catalog c fs' collection'
         else Probing (cursor_at (year c) (case_type c) (later_types c)
                                 (case_no c + 1) (continuous_no_case c))
                      fs' collection'.
Proof.
  intros Hr Hf. unfold step. rewrite Hr.
  destruct r as [data|]; [|discriminate].
  exists data. split; [reflexivity|]. rewrite Hf. reflexivity.
Qed.

Section InnerLoop.

Variable y : Z.
Variable t : string.
Variable ts : list string.

(** Which case numbers exist. *)
Variable found : nat -> bool.

Lemma misses_upto_mono (i j : nat) :
  i <= j -> misses_upto found i <= misses_upto found j.
Proof.
  induction 1 as [|j Hle IH]; [lia|]. simpl. lia.
Qed.

(** While fewer than twenty case numbers have been missed, the inner
    loop is still at this case type, at the next case number, and its
    counter is the number of misses so far. *)
Lemma inner_loop_run (n : nat) :
  forall (fs : FS) (collection : Mongo),
    answers resolve captcha_code t y found n ->
    misses_upto found n < 20 ->
    exists fs' collection',
      run n (Probing (cursor_at y t ts 1 0) fs collection)
      = Probing (cursor_at y t ts (S n) (misses_upto found n))
                fs' collection'.
Proof.
  induction n as [|n IH]; intros fs collection Hans Hlt.
  - eexists _, _. reflexivity.
  - simpl in Hlt.
    destruct (IH fs collection) as (fs1 & coll1 & Hrun).
    { intros k Hk. apply Hans. lia. }
    { lia. }
    rewrite run_S, Hrun. cbn [next].
    specialize (Hans (S n) ltac:(lia)).
    destruct (found (S n)) eqn:Hf.
    + destruct (Hans fs1) as (r & fs2 & Hr & Hfalsy).
      destruct (step_hit (cursor_at y t ts (S n) (misses_upto found n))
                  fs1 fs2 coll1 r Hr Hfalsy) as (data & _ & ->).
      cbn [continuous_no_case cursor_at year case_type later_types case_no].
      cbv zeta.
      destruct (Nat.eqb_spec (misses_upto found n) 20); [lia|].
      eexists _, _. cbn [misses_upto]. rewrite Hf.
      rewrite Nat.add_0_r, Nat.add_1_r. reflexivity.
    + destruct (Hans fs1) as (r & fs2 & Hr & Hfalsy).
      rewrite (step_miss (cursor_at y t ts (S n) (misses_upto found n))
                 fs1 fs2 coll1 r Hr Hfalsy).
      cbn [continuous_no_case cursor_at year case_type later_types case_no].
      destruct (Nat.eqb_spec (S (misses_upto found n)) 20); [lia|].
      eexists _, _. cbn [misses_upto]. rewrite Hf.
      rewrite !Nat.add_1_r. reflexivity.
Qed.

(** The probe that brings the twentieth miss leaves the inner loop. *)
Lemma inner_loop_exit (n : nat) (fs : FS) (collection : Mongo) :
  answers resolve captcha_code t y found (S n) ->
  misses_upto found n = 19 ->
  found (S n) = false ->
  exists fs' collection',
    run (S n) (Probing (cursor_at y t ts 1 0) fs collection)
    = advance catalog (cursor_at y t ts (S n) 19) fs' collection'.
Proof.
  intros Hans H19 Hf.
  destruct (inner_loop_run n fs collection) as (fs1 & coll1 & Hrun).
  { intros k Hk. apply Hans. lia. }
  { lia. }
  rewrite run_S, Hrun, H19. cbn [next].
  specialize (Hans (S n) ltac:(lia)). rewrite Hf in Hans.
  destruct (Hans fs1) as (r & fs2 & Hr & Hfalsy).
  rewrite (step_miss (cursor_at y t ts (S n) 19) fs1 fs2 coll1 r Hr Hfalsy).
  eexists _, _. reflexivity.
Qed.


End InnerLoop.

End Enumeration.

Lemma misses_upto_single (h n : nat) :
  1 <= h ->
  misses_upto (fun k => k =? h)%nat n = if (h <=? n)%nat then n - 1 else n.
Proof.
  intros Hh. induction n as [|n IH]; cbn [misses_upto].
  - destruct (Nat.leb_spec h 0); [lia | reflexivity].
  - rewrite IH.
    destruct (Nat.eqb_spec (S n) h), (Nat.leb_spec h n),
      (Nat.leb_spec h (S n)); lia.
Qed.

(** C5: a resolved case leaves the miss counter as it is, so the count goes
    on across it.  If exactly one of the case numbers [1 .. 20] exists and
    number 21 does not, then after twenty probes the inner loop is still
    running with nineteen misses counted, and the twenty-first probe, the
    twentieth miss in total, ends it. *)
Theorem hit_does_not_reset_miss_streak
    (catalog : list string)
    (resolve : string -> string -> string -> string ->
               M (option (gmap string value)))
    (captcha_code : string) (y : Z) (t : string) (ts : list string)
    (h : nat) (fs : FS) (collection : Mongo) :
  1 <= h <= 20 ->
  hit_at resolve captcha_code t y h ->
  (forall k, 1 <= k <= 21 -> k <> h -> miss_at resolve captcha_code t y k) ->
  (forall c fs0 fs1 collection0 r,
      resolve (case_type c) (PyStr.of_nat (case_no c)) (PyStr.of_Z (year c))
              captcha_code fs0 = (Ok r, fs1) ->
      falsy r = false ->
      continuous_no_case c < 20 ->
      exists collection1,
        step catalog resolve captcha_code c fs0 collection0
        = Probing (cursor_at (year c) (case_type c) (later_types c)
                             (case_no c + 1) (continuous_no_case c))
                  fs1 collection1)
  /\ (exists fs' collection',
        run catalog resolve captcha_code 20
            (Probing (cursor_at y t ts 1 0) fs collection)
        = Probing (cursor_at y t ts 21 19) fs' collection')
  /\ (exists fs' collection',
        run catalog resolve captcha_code 21
            (Probing (cursor_at y t ts 1 0) fs collection)
        = advance catalog (cursor_at y t ts 21 19) fs' collection').
Proof.
  intros Hh Hhit Hmiss.
  assert (Hans : answers resolve captcha_code t y (fun k => k =? h)%nat 21).
  { intros k Hk. destruct (Nat.eqb_spec k h) as [->|Hne]; auto. }
  assert (H19 : misses_upto (fun k => k =? h)%nat 20 = 19).
  { rewrite misses_upto_single by lia.
    destruct (Nat.leb_spec h 20); [reflexivity | lia]. }
  split; [|split].
  - intros c fs0 fs1 collection0 r Hr Hf Hlt.
    destruct (step_hit catalog resolve captcha_code c fs0 fs1 collection0 r
                Hr Hf) as (data & _ & ->).
    cbv zeta. destruct (Nat.eqb_spec (continuous_no_case c) 20); [lia|].
    eexists. reflexivity.
  - destruct (inner_loop_run catalog resolve captcha_code y t ts
                (fun k => k =? h)%nat 20 fs collection)
      as (fs' & coll' & Hrun).
    + intros k Hk. apply Hans. lia.
    + lia.
    + rewrite H19 in Hrun. eauto.
  - apply (inner_loop_exit catalog resolve captcha_code y t ts
             (fun k => k =? h)%nat 20 fs collection Hans H19).
    destruct (Nat.eqb_spec 21 h); [lia | reflexivity].
Qed.

(** C6: in the inner loop of a case type, the probe that brings the miss
    counter to twenty is the one after which the case type changes, and it
    changes once: every earlier probe leaves the loop at the same case type,
    and this one moves to the next type of the catalog (or to the first type
    of the year below, or out of the loops below the year 2000), with case
    number 1 and no miss counted. *)
Theorem threshold_advances_case_type_once
    (catalog : list string)
    (resolve : string -> string -> string -> string ->
               M (option (gmap string value)))
    (captcha_code : string) (y : Z) (t : string) (ts : list string)
    (found : nat -> bool) (n : nat) (fs : FS) (collection : Mongo) :
  answers resolve captcha_code t y found (S n) ->
  misses_upto found n = 19 ->
  found (S n) = false ->
  (forall j, j <= n ->
     exists fs' collection',
       run catalog resolve captcha_code j
           (Probing (cursor_at y t ts 1 0) fs collection)
       = Probing (cursor_at y t ts (S j) (misses_upto found j))
                 fs' collection')
  /\ exists fs' collection',
       run catalog resolve captcha_code (S n)
           (Probing (cursor_at y t ts 1 0) fs collection)
       = match ts with
         | t' :: ts' => Probing (cursor_at y t' ts' 1 0) fs' collection'
         | [] =>
             if (2000 <=? y - 1)%Z then
               match catalog with
               | t0 :: ts0 =>
                   Probing (cursor_at (y - 1) t0 ts0 1 0) fs' collection'
               | [] => Finished fs' collection'
               end
             else Finished fs' collection'
         end.
Proof.
  intros Hans H19 Hf. split.
  - intros j Hj.
    apply inner_loop_run.
    + intros k Hk. apply Hans. lia.
    + pose proof (misses_upto_mono found j n Hj). lia.
  - destruct (inner_loop_exit catalog resolve captcha_code y t ts found n
                fs collection Hans H19 Hf) as (fs' & coll' & Hrun).
    exists fs', coll'. rewrite Hrun. reflexivity.
Qed.

(** A record that the resolver returns is never the empty dict, so that
    [not result] tells exactly the absent results. *)
Lemma summary_non_empty (h0 h1 : H5) : summary h0 h1 <> ∅.
Proof.
  unfold summary. destruct (h5_spans h1) as [|r0 [|r1 rs]];
    apply insert_non_empty.
Qed.

Lemma get_case_details_record_truthy
    (net : Net) (ctype regno regyr japtcha : string) (fs : FS)
    (data : gmap string value) :
  (get_case_details net ctype regno regyr japtcha fs).1 = Ok (Some data) ->
  falsy (Some data) = false.
Proof.
  intros H. unfold falsy. apply bool_decide_eq_false. revert H.
  destruct (page_response (net ctype regno regyr japtcha))
    as [|[] soup] eqn:Hp;
    try (rewrite (get_case_details_unreachable net ctype regno regyr japtcha
                    fs {| h5s := []; table := None |}) by (now left);
         discriminate).
  - destruct (h5s soup) as [|h0 [|h1 hs]] eqn:Hh;
      try (rewrite (get_case_details_few_headings _ _ _ _ _ fs soup Hp)
             by (rewrite Hh; simpl; lia); discriminate).
    rewrite (get_case_details_page _ _ _ _ _ fs soup h0 h1 hs Hp Hh).
    destruct (table soup) as [trs|]; cbv zeta.
    + destruct (results _); [|discriminate]. simpl. intros [= <-].
      apply insert_non_empty.
    + simpl. intros [= <-]. apply summary_non_empty.
  - rewrite (get_case_details_unreachable net ctype regno regyr japtcha
               fs soup) by (now right). discriminate.
Qed.

(** C10: a record that the resolver returns always counts as a case; and at
    any point of the crawl, the document store holds what it held at the
    start followed by one record for each probe that resolved a case so
    far, in the order of the probes: the resolved record with [case_info]
    set to the case type, the case number and the filing year of its probe,
    separated by single slashes. *)
Theorem resolved_cases_are_persisted_once
    (catalog : list string)
    (resolve : string -> string -> string -> string ->
               M (option (gmap string value)))
    (captcha_code : string) (n : nat) (s : Crawl) :
  (forall net ctype regno regyr japtcha fs data,
      (get_case_details net ctype regno regyr japtcha fs).1 = Ok (Some data) ->
      falsy (Some data) = false)
  /\ collection_of (run catalog resolve captcha_code n s)
     = (collection_of s
        ++ map (fun '(c, data) =>
                  <["case_info" :=
                      VStr (case_type c ++ "/" ++ pretty (case_no c) ++ "/"
                            ++ pretty (year c))%string]> data)
               (resolved catalog resolve captcha_code n s))%list.
Proof.
  split; [intros; eapply get_case_details_record_truthy; eauto|].
  revert s. induction n as [|n IH]; intros s.
  - destruct s; simpl; now rewrite app_nil_r.
  - destruct s as [c fs collection|fs collection|e fs collection].
    + change (run catalog resolve captcha_code (S n) (Probing c fs collection))
        with (run catalog resolve captcha_code n
                  (step catalog resolve captcha_code c fs collection)).
      rewrite IH. cbn [resolved collection_of next].
      rewrite map_app, app_assoc. f_equal.
      unfold step.
      destruct (resolve _ _ _ _ fs) as [[[data|]|e] fs'] eqn:Hr.
      * unfold falsy.
        destruct (bool_decide (data = ∅));
          (destruct (Nat.eqb _ 20);
             [rewrite collection_of_advance|]; cbn [collection_of map];
             rewrite ?app_nil_r; reflexivity).
      * destruct (Nat.eqb _ 20);
          [rewrite collection_of_advance|]; cbn [collection_of map];
          rewrite ?app_nil_r; reflexivity.
      * cbn [collection_of map]. now rewrite app_nil_r.
    + rewrite run_Finished. simpl. now rewrite app_nil_r.
    + rewrite run_Crashed. simpl. now rewrite app_nil_r.
Qed.

(** The spec's scenario: the case CS(COMM)/1/2023 with parties "A vs B",
    status "Pending", next date "12-05-2024" and one order with a document
    link is stored with one order, the archive URL and its [case_info]; the
    temporary file is gone and the loop goes on to case number 2. *)
Example linked_case_is_persisted :
  step ["CS(COMM)"]
       (get_case_details
          (Scenario.net_page
             (Scenario.page Scenario.headings
                (Some [Scenario.header; Scenario.row_linked]))
             Scenario.w_ok []))
       "7x3k" (cursor_at 2023 "CS(COMM)" [] 1 0) ∅ []
  = Probing (cursor_at 2023 "CS(COMM)" [] 2 0) ∅
      [ {[ "parties" := VStr "A vs B"; "status" := VStr "Pending";
           "next_date" := VStr "12-05-2024";
           "orders" :=
             VList [ {[ "snumber" := PStr "1";
                        "case_number" := PStr "CS(COMM) 1/2023";
                        "date_of_order" := PStr "12-05-2023";
                        "corrigenda_link" := PStr "";
                        "hindi_order" := PStr "";
                        "url" := PStr "https://archive.example/0f3a.pdf" ]} ];
           "case_info" := VStr "CS(COMM)/1/2023" ]} ].
Proof. vm_compute. reflexivity. Qed.

(** The record of the first case of a crawl in which every lookup finds a
    case without orders. *)
Example first_case_is_persisted :
  collection_of (main Scenario.net_always (Some "7x3k") 1 ∅ [])
  = [ {[ "parties" := VStr "A vs B"; "status" := VStr "Pending";
         "next_date" := VStr "12-05-2024"; "orders" := VList [];
         "case_info" := VStr "RFA(OS)(COMM)/1/2023" ]} ].
Proof. vm_compute. reflexivity. Qed.

(** The scenario nets, as the enumeration sees them. *)
Lemma net_only_hit (h : nat) (captcha_code t : string) (y : Z) :
  hit_at (get_case_details (Scenario.net_only h)) captcha_code t y h.
Proof.
  intros fs. eexists _, fs. split.
  - apply (get_case_details_page _ _ _ _ _ fs
             {| h5s := Scenario.headings; table := None |}
             {| h5_text := " A vs B "; h5_spans := [] |}
             {| h5_text := "Status"; h5_spans := ["Pending"; "12-05-2024"] |}
             []); [|reflexivity].
    unfold Scenario.net_only. rewrite decide_True by reflexivity. reflexivity.
  - vm_compute. reflexivity.
Qed.

Lemma net_only_miss (h k : nat) (captcha_code t : string) (y : Z) :
  k <> h ->
  miss_at (get_case_details (Scenario.net_only h)) captcha_code t y k.
Proof.
  intros Hne fs. exists None, fs. split; [|reflexivity].
  apply (get_case_details_unreachable _ _ _ _ _ fs
           {| h5s := []; table := None |}).
  left. unfold Scenario.net_only.
  rewrite decide_False; [reflexivity|].
  unfold PyStr.of_nat. intros Heq. apply Hne. exact (inj pretty _ _ Heq).
Qed.

Lemma net_down_miss (k : nat) (captcha_code t : string) (y : Z) :
  miss_at (get_case_details Scenario.net_down) captcha_code t y k.
Proof. intros fs. exists None, fs. split; reflexivity. Qed.


Lemma hit_does_not_reset_miss_streak_witness :
  (exists fs' collection',
     run REQUIRED_CASE_TYPES (get_case_details (Scenario.net_only 20)) "7x3k"
         20 (Probing (cursor_at 2023 "CS(COMM)" [] 1 0) ∅ [])
     = Probing (cursor_at 2023 "CS(COMM)" [] 21 19) fs' collection')
  /\ (exists fs' collection',
        run REQUIRED_CASE_TYPES (get_case_details (Scenario.net_only 20))
            "7x3k" 21 (Probing (cursor_at 2023 "CS(COMM)" [] 1 0) ∅ [])
        = advance REQUIRED_CASE_TYPES (cursor_at 2023 "CS(COMM)" [] 21 19)
                  fs' collection').
Proof.
  apply (hit_does_not_reset_miss_streak REQUIRED_CASE_TYPES
           (get_case_details (Scenario.net_only 20)) "7x3k" 2023 "CS(COMM)"
           [] 20 ∅ []).
  - lia.
  - apply net_only_hit.
  - intros k _ Hk. now apply net_only_miss.
Defined.

Lemma threshold_advances_case_type_once_witness :
  exists fs' collection',
    run ["CS(COMM)"; "O.M.P. (COMM)"] (get_case_details Scenario.net_down)
        "7x3k" 20
        (Probing (cursor_at 2023 "CS(COMM)" ["O.M.P. (COMM)"] 1 0) ∅ [])
    = Probing (cursor_at 2023 "O.M.P. (COMM)" [] 1 0) fs' collection'.
Proof.
  apply (threshold_advances_case_type_once ["CS(COMM)"; "O.M.P. (COMM)"]
           (get_case_details Scenario.net_down) "7x3k" 2023 "CS(COMM)"
           ["O.M.P. (COMM)"] (fun _ => false) 19 ∅ []).
  - intros k _. apply net_down_miss.
  - reflexivity.
  - reflexivity.
Defined.

(** The spec's scenario: twenty transport errors in a row for one type make
    exactly twenty probes before the next type, and store nothing. *)
Example twenty_transport_errors :
  run ["CS(COMM)"; "O.M.P. (COMM)"] (get_case_details Scenario.net_down)
      "7x3k" 20
      (Probing (cursor_at 2023 "CS(COMM)" ["O.M.P. (COMM)"] 1 0) ∅ [])
  = Probing (cursor_at 2023 "O.M.P. (COMM)" [] 1 0) ∅ []
  /\ map case_no
         (probes ["CS(COMM)"; "O.M.P. (COMM)"]
                 (get_case_details Scenario.net_down) "7x3k" 20
                 (Probing (cursor_at 2023 "CS(COMM)" ["O.M.P. (COMM)"] 1 0)
                          ∅ []))
     = seq 1 20.
Proof. split; vm_compute; reflexivity. Qed.

(** ** Termination and determinism of the enumeration *)

Section Termination.

Variable catalog : list string.
Variable resolve : string -> string -> string -> string ->
                   M (option (gmap string value)).
Variable captcha_code : string.
Variable from_year : Z.


(** Which case numbers exist, per year and case type. *)
Variable found : Z -> string -> nat -> bool.

Hypothesis resolve_answers :
  forall y t n, (2000 <= y <= from_year)%Z -> t ∈ catalog ->
                answers resolve captcha_code t y (found y t) n.

Hypothesis misses_accumulate :
  forall y t, (2000 <= y <= from_year)%Z -> t ∈ catalog ->
              exists n, misses_upto (found y t) n = 20.




End Termination.



Section SameCrawl.

Variable catalog : list string.
Variables resolve1 resolve2 : string -> string -> string -> string ->
                              M (option (gmap string value)).
Variable captcha_code : string.

(** The two resolvers return or raise the same, whatever the local files
    are. *)
Hypothesis same_values :
  forall ctype regno regyr japtcha fs1 fs2,
    (resolve1 ctype regno regyr japtcha fs1).1
    = (resolve2 ctype regno regyr japtcha fs2).1.





End SameCrawl.







(** * Further properties of the code *)

(** ** The fetcher and the clean-up *)

(** A fetch whose body arrives whole returns the path [pdf/<uuid>.pdf]; the
    file at that path then holds the chunks in order, replacing whatever was
    there, and no other file is touched. *)
Theorem download_pdf_stores_body
    (w : RowWorld) (pdf_url : string) (fs : FS) (body : Stream) :
  file_response w = FileHttp true body ->
  breaks body = false ->
  (download_pdf w pdf_url fs).1 = Ok (Some (temp_path w))
  /\ (download_pdf w pdf_url fs).2 !! temp_path w = Some (received body)
  /\ forall path, path <> temp_path w ->
       (download_pdf w pdf_url fs).2 !! path = fs !! path.
Proof.
  intros Hr Hb. rewrite (download_pdf_streamed _ _ _ _ Hr), Hb.
  unfold temp_path. cbn [fst snd]. split; [reflexivity|].
  split; [apply lookup_insert_eq|].
  intros path Hne. now apply lookup_insert_ne.
Qed.

Lemma download_pdf_stores_body_witness :
  (download_pdf Scenario.w_ok "2023/cs1.pdf" ∅).1
  = Ok (Some (temp_path Scenario.w_ok))
  /\ (download_pdf Scenario.w_ok "2023/cs1.pdf" ∅).2
       !! temp_path Scenario.w_ok
     = Some (received (Chunk "%PDF-1.4" Eof))
  /\ forall path, path <> temp_path Scenario.w_ok ->
       (download_pdf Scenario.w_ok "2023/cs1.pdf" ∅).2 !! path
       = (∅ : FS) !! path.
Proof.
  apply (download_pdf_stores_body Scenario.w_ok "2023/cs1.pdf" ∅
           (Chunk "%PDF-1.4" Eof)); reflexivity.
Defined.

(** The fetcher never raises: it answers [None] exactly when the request is
    refused or the stream breaks, and the path of its file otherwise. *)
Theorem download_pdf_outcome (w : RowWorld) (pdf_url : string) (fs : FS) :
  (download_pdf w pdf_url fs).1
  = if fetch_fails (file_response w) then Ok None
    else Ok (Some (temp_path w)).
Proof.
  destruct (file_response w) as [|[] body] eqn:Hr.
  - now rewrite download_pdf_refused by now rewrite Hr.
  - rewrite (download_pdf_streamed _ _ _ _ Hr). simpl.
    destruct (breaks body); reflexivity.
  - now rewrite download_pdf_refused by now rewrite Hr.
Qed.

(** Fetching a document and then cleaning up the returned path leaves the
    local files exactly as they were, provided that the temporary name was
    free. *)
Theorem download_then_clean_up_restores
    (w : RowWorld) (pdf_url : string) (fs : FS) :
  fetch_fails (file_response w) = false ->
  fs !! temp_path w = None ->
  (let* downloaded_file_path := download_pdf w pdf_url in
   clean_up downloaded_file_path) fs
  = (Ok tt, fs).
Proof.
  intros Hf Hfree. unfold bind.
  destruct (file_response w) as [|[] body] eqn:Hr; try discriminate.
  simpl in Hf. rewrite (download_pdf_streamed _ _ _ _ Hr), Hf.
  rewrite clean_up_Some. fold (temp_path w).
  now rewrite delete_insert_eq, delete_id.
Qed.

Lemma download_then_clean_up_restores_witness :
  (let* downloaded_file_path := download_pdf Scenario.w_ok "2023/cs1.pdf" in
   clean_up downloaded_file_path) ∅
  = (Ok tt, ∅).
Proof.
  apply (download_then_clean_up_restores Scenario.w_ok "2023/cs1.pdf" ∅);
    reflexivity.
Defined.

(** [clean_up] of the path of an existing file does not raise; afterwards
    the path is free and every other file is as before, and a second
    clean-up of the same path does not raise either and changes nothing. *)
Theorem clean_up_removes_only_its_path (p : string) (fs : FS) :
  is_Some (fs !! p) ->
  (clean_up (Some p) fs).1 = Ok tt
  /\ (clean_up (Some p) fs).2 !! p = None
  /\ (forall q, q <> p -> (clean_up (Some p) fs).2 !! q = fs !! q)
  /\ clean_up (Some p) (clean_up (Some p) fs).2
     = (Ok tt, (clean_up (Some p) fs).2).
Proof.
  intros _. rewrite !clean_up_Some. cbn [fst snd].
  split; [reflexivity|]. split; [apply lookup_delete_eq|].
  split; [intros q Hq; now apply lookup_delete_ne|].
  f_equal. apply delete_id, lookup_delete_eq.
Qed.

Lemma clean_up_removes_only_its_path_witness :
  (clean_up (Some "pdf/0f3a.pdf")
            ({[ "pdf/0f3a.pdf" := "%PDF-1.4" ]} : FS)).1 = Ok tt.
Proof.
  apply (clean_up_removes_only_its_path "pdf/0f3a.pdf"
           {[ "pdf/0f3a.pdf" := "%PDF-1.4" ]}).
  vm_compute. eauto.
Defined.

(** ** Splitting strings *)

Lemma split_nonempty (sep : ascii) (s : string) : PyStr.split sep s <> [].
Proof.
  destruct s as [|c s]; simpl; [discriminate|].
  destruct (Ascii.eqb c sep); [discriminate|].
  destruct (PyStr.split sep s); discriminate.
Qed.

(** A string without the separator is its own single piece. *)
Lemma split_no_sep (sep : ascii) (s : string) :
  occurs sep s = false -> PyStr.split sep s = [s].
Proof.
  induction s as [|c s IH]; [reflexivity|]. simpl.
  destruct (Ascii.eqb c sep); [discriminate|]. simpl.
  intros H. now rewrite IH.
Qed.

(** There is a second piece exactly when the separator occurs. *)
Lemma split_second_piece (sep : ascii) (s : string) :
  PyStr.split sep s !! 1 = None <-> occurs sep s = false.
Proof.
  induction s as [|c s IH]; [simpl; tauto|]. simpl.
  destruct (Ascii.eqb c sep); simpl.
  - destruct (PyStr.split sep s) eqn:E; [now apply split_nonempty in E|].
    simpl. split; discriminate.
  - destruct (PyStr.split sep s) eqn:E; [now apply split_nonempty in E|].
    exact IH.
Qed.

(** The last piece of [dir/name] is [name] when [name] has no separator. *)
Lemma split_last (sep : ascii) (dir name : string) :
  occurs sep name = false ->
  List.last (PyStr.split sep (dir ++ String sep name)) "" = name.
Proof.
  intros Hname. induction dir as [|c dir IH].
  - change (List.last (PyStr.split sep (String sep name)) "" = name).
    simpl. rewrite Ascii.eqb_refl, (split_no_sep _ _ Hname). reflexivity.
  - change (List.last (PyStr.split sep (String c (dir ++ String sep name))) ""
            = name).
    simpl. destruct (Ascii.eqb c sep).
    + destruct (PyStr.split sep (dir ++ String sep name)) eqn:E;
        [now apply split_nonempty in E | exact IH].
    + destruct (PyStr.split sep (dir ++ String sep name)) as [|p ps] eqn:E;
        [now apply split_nonempty in E|].
      destruct ps; [|exact IH]. simpl in IH.
      (* a single piece would have to hold the separator *)
      exfalso.
      assert (Hocc : occurs sep (dir ++ String sep name) = true).
      { clear. induction dir as [|d dir IHd].
        - change (occurs sep (String sep name) = true). simpl.
          now rewrite Ascii.eqb_refl.
        - change (occurs sep (String d (dir ++ String sep name)) = true).
          simpl. rewrite IHd. apply orb_true_r. }
      pose proof (proj1 (split_second_piece sep (dir ++ String sep name)))
        as H1. rewrite E in H1. rewrite H1 in Hocc by reflexivity.
      discriminate.
Qed.

(** ** The order-row extractor *)

(** The extractor reads the first five columns only: columns beyond the
    fifth change neither the record nor the effect on the local files. *)
Theorem parse_order_row_ignores_extra_columns
    (w : RowWorld) (fs : FS) (c0 c1 c2 c3 c4 : Td) (extra : list Td) :
  parse_order_row w {| tds := c0 :: c1 :: c2 :: c3 :: c4 :: extra |} fs
  = parse_order_row w {| tds := [c0; c1; c2; c3; c4] |} fs.
Proof.
  rewrite (parse_order_row_five w
             {| tds := c0 :: c1 :: c2 :: c3 :: c4 :: extra |}
             fs c0 c1 c2 c3 c4 extra eq_refl).
  rewrite (parse_order_row_five w {| tds := [c0; c1; c2; c3; c4] |}
             fs c0 c1 c2 c3 c4 [] eq_refl).
  reflexivity.
Qed.

(** The extractor raises [IndexError] in exactly two situations: the row has
    fewer than five columns, or its link's [onclick] has no apostrophe. *)
Theorem parse_order_row_index_error (w : RowWorld) (row : Tr) (fs : FS) :
  (parse_order_row w row fs).1 = Raise IndexError
  <-> length (tds row) < 5
      \/ exists cell action,
           tds row !! 1 = Some cell /\ trigger cell = Some action
           /\ occurs PyStr.apostrophe action = false.
Proof.
  destruct (tds row) as [|c0 [|c1 [|c2 [|c3 [|c4 l]]]]] eqn:Hc;
    try (rewrite parse_order_row_short by (rewrite Hc; simpl; lia);
         simpl; split; [intros _; left; lia | reflexivity]).
  rewrite (parse_order_row_five _ _ _ _ _ _ _ _ _ Hc). simpl length.
  split.
  - intros H. right. exists c1.
    destruct (trigger c1) as [action|]; [|discriminate].
    exists action. split; [reflexivity|]. split; [reflexivity|].
    apply split_second_piece.
    destruct (PyStr.split PyStr.apostrophe action !! 1); [|reflexivity].
    destruct (fetch_fails _); discriminate.
  - intros [Hlen | (cell & action & Hcell & Htr & Hocc)]; [lia|].
    simpl in Hcell. injection Hcell as <-. rewrite Htr.
    apply split_second_piece in Hocc. now rewrite Hocc.
Qed.

(** Every record that the extractor produces has the same six keys. *)
Theorem parse_order_row_keys
    (w : RowWorld) (row : Tr) (fs fs' : FS) (temp : gmap string pyval) :
  parse_order_row w row fs = (Ok temp, fs') ->
  dom temp
  = ({[ "snumber"; "case_number"; "date_of_order"; "corrigenda_link";
        "hindi_order"; "url" ]} : gset string).
Proof.
  intros H.
  destruct (tds row) as [|c0 [|c1 [|c2 [|c3 [|c4 l]]]]] eqn:Hc;
    try (rewrite parse_order_row_short in H by (rewrite Hc; simpl; lia);
         discriminate).
  rewrite (parse_order_row_five _ _ _ _ _ _ _ _ _ Hc) in H.
  assert (Hdom : forall v,
             dom (<["url" := v]> (display_fields c0 c1 c2 c3 c4))
             = ({[ "snumber"; "case_number"; "date_of_order";
                   "corrigenda_link"; "hindi_order"; "url" ]} : gset string)).
  { intros v. unfold display_fields.
    rewrite !dom_insert_L, dom_singleton_L. set_solver. }
  destruct (trigger c1) as [action|].
  - destruct (_ !! 1); [|discriminate].
    destruct (fetch_fails _); [discriminate|].
    injection H as <- _. apply Hdom.
  - injection H as <- _. apply Hdom.
Qed.

Lemma parse_order_row_keys_witness :
  exists temp fs',
    parse_order_row Scenario.w_ok Scenario.row_plain ∅ = (Ok temp, fs')
    /\ dom temp
       = ({[ "snumber"; "case_number"; "date_of_order"; "corrigenda_link";
             "hindi_order"; "url" ]} : gset string).
Proof.
  eexists _, _. split; [vm_compute; reflexivity|].
  apply (parse_order_row_keys Scenario.w_ok Scenario.row_plain ∅ ∅).
  vm_compute. reflexivity.
Defined.

(** Where the extractor leaves the local files. *)
Lemma parse_order_row_files (w : RowWorld) (row : Tr) (fs fs' : FS)
    (r : result (gmap string pyval)) :
  parse_order_row w row fs = (r, fs') ->
  stream_intact w = true ->
  fs' = fs \/ fs' = delete (temp_path w) fs.
Proof.
  intros H Hi.
  destruct (tds row) as [|c0 [|c1 [|c2 [|c3 [|c4 l]]]]] eqn:Hc;
    try (rewrite parse_order_row_short in H by (rewrite Hc; simpl; lia);
         injection H as _ <-; now left).
  rewrite (parse_order_row_five _ _ _ _ _ _ _ _ _ Hc) in H.
  destruct (trigger c1) as [action|]; [|injection H as _ <-; now left].
  destruct (_ !! 1) as [pdf_path|]; [|injection H as _ <-; now left].
  unfold stream_intact in Hi.
  destruct (file_response w) as [|[] body] eqn:Hr.
  - rewrite download_pdf_refused in H by now rewrite Hr.
    simpl in H. injection H as _ <-. now left.
  - rewrite (download_pdf_streamed _ _ _ _ Hr) in H. simpl in H.
    destruct (breaks body); [discriminate|].
    injection H as _ <-. right. unfold temp_path.
    now rewrite delete_insert_eq.
  - rewrite download_pdf_refused in H by now rewrite Hr.
    simpl in H. injection H as _ <-. now left.
Qed.

(** When the extractor returns a record, no temporary file is left: the
    local files are as before, except that a linked row has freed the path
    of its temporary file. *)
Theorem parse_order_row_leaves_no_temp_file
    (w : RowWorld) (row : Tr) (fs fs' : FS) (temp : gmap string pyval) :
  parse_order_row w row fs = (Ok temp, fs') ->
  fs' = (if linked row then delete (temp_path w) fs else fs).
Proof.
  intros H.
  destruct (tds row) as [|c0 [|c1 [|c2 [|c3 [|c4 l]]]]] eqn:Hc;
    try (rewrite parse_order_row_short in H by (rewrite Hc; simpl; lia);
         discriminate).
  rewrite (parse_order_row_five _ _ _ _ _ _ _ _ _ Hc) in H.
  rewrite (linked_five _ _ _ _ _ _ _ Hc).
  destruct (trigger c1) as [action|].
  - rewrite bool_decide_true by eauto.
    destruct (_ !! 1) as [pdf_path|]; [|discriminate].
    destruct (file_response w) as [|[] body] eqn:Hr; try discriminate.
    simpl in H. rewrite (download_pdf_streamed _ _ _ _ Hr) in H.
    destruct (breaks body); [discriminate|].
    injection H as _ <-. unfold temp_path. simpl.
    now rewrite delete_insert_eq.
  - rewrite bool_decide_false by (intros [? ?]; discriminate).
    now injection H as _ <-.
Qed.

Lemma parse_order_row_leaves_no_temp_file_witness :
  (parse_order_row Scenario.w_ok Scenario.row_linked ∅).2
  = (if linked Scenario.row_linked
     then delete (temp_path Scenario.w_ok) ∅ else ∅).
Proof.
  eapply (parse_order_row_leaves_no_temp_file Scenario.w_ok
            Scenario.row_linked ∅).
  vm_compute. reflexivity.
Defined.

(** ** Stripping strings *)

Lemma rev_app_list (s1 s2 : string) :
  list_ascii_of_string (String.rev_app s1 s2)
  = (List.rev (list_ascii_of_string s1) ++ list_ascii_of_string s2)%list.
Proof.
  revert s2. induction s1 as [|c s1 IH]; intros s2; [reflexivity|].
  simpl. rewrite IH. simpl. now rewrite <- app_assoc.
Qed.

Lemma rev_list (s : string) :
  list_ascii_of_string (String.rev s) = List.rev (list_ascii_of_string s).
Proof. unfold String.rev. rewrite rev_app_list. apply app_nil_r. Qed.

Lemma append_list (s1 s2 : string) :
  list_ascii_of_string (s1 ++ s2)
  = (list_ascii_of_string s1 ++ list_ascii_of_string s2)%list.
Proof.
  induction s1 as [|c s1 IH]; [reflexivity|].
  change (list_ascii_of_string (String c (s1 ++ s2))
          = (c :: list_ascii_of_string s1 ++ list_ascii_of_string s2)%list).
  simpl. now rewrite IH.
Qed.

Lemma list_ascii_inj (s1 s2 : string) :
  list_ascii_of_string s1 = list_ascii_of_string s2 -> s1 = s2.
Proof.
  intros H. rewrite <- (string_of_list_ascii_of_string s1),
              <- (string_of_list_ascii_of_string s2). now rewrite H.
Qed.

Lemma rev_involutive (s : string) : String.rev (String.rev s) = s.
Proof.
  apply list_ascii_inj. rewrite !rev_list. apply List.rev_involutive.
Qed.

Lemma rev_append (s1 s2 : string) :
  String.rev (s1 ++ s2) = (String.rev s2 ++ String.rev s1)%string.
Proof.
  apply list_ascii_inj.
  rewrite rev_list, !append_list, !rev_list. apply List.rev_app_distr.
Qed.

Lemma blank_list (s : string) :
  blank s = forallb PyStr.isspace (list_ascii_of_string s).
Proof. induction s as [|c s IH]; simpl; [reflexivity | now rewrite IH]. Qed.

Lemma blank_rev (s : string) : blank (String.rev s) = blank s.
Proof.
  rewrite !blank_list, rev_list.
  induction (list_ascii_of_string s) as [|c l IH]; [reflexivity|].
  simpl. rewrite forallb_app, IH. simpl.
  rewrite andb_true_r. apply andb_comm.
Qed.

Lemma blank_append (s1 s2 : string) :
  blank (s1 ++ s2) = blank s1 && blank s2.
Proof. rewrite !blank_list, append_list. apply forallb_app. Qed.

(** [lstrip] removes a blank prefix and nothing else. *)
Lemma lstrip_spec (s : string) :
  exists pre, blank pre = true
              /\ s = (pre ++ PyStr.lstrip s)%string
              /\ starts_with_space (PyStr.lstrip s) = false.
Proof.
  induction s as [|c s (pre & Hb & Hs & Hn)].
  - exists "". auto.
  - simpl. destruct (PyStr.isspace c) eqn:Hc.
    + exists (String c pre). simpl. rewrite Hc, Hb.
      split; [reflexivity|]. split; [|exact Hn].
      change (String c s = String c (pre ++ PyStr.lstrip s)). now f_equal.
    + exists "". simpl. rewrite Hc. auto.
Qed.

(** [rstrip] removes a blank suffix and nothing else. *)
Lemma rstrip_spec (s : string) :
  exists post, blank post = true
               /\ s = (PyStr.rstrip s ++ post)%string
               /\ ends_with_space (PyStr.rstrip s) = false.
Proof.
  destruct (lstrip_spec (String.rev s)) as (pre & Hb & Hs & Hn).
  exists (String.rev pre). rewrite blank_rev.
  split; [exact Hb|]. unfold PyStr.rstrip, ends_with_space.
  rewrite rev_involutive. split; [|exact Hn].
  rewrite <- (rev_involutive s) at 1. rewrite Hs at 1. apply rev_append.
Qed.

Lemma starts_with_space_append (s post : string) :
  starts_with_space (s ++ post) = false ->
  s <> "" ->
  starts_with_space s = false.
Proof. destruct s; [congruence | intros H _; exact H]. Qed.

(** [strip] removes a blank prefix and a blank suffix, and what is left
    neither starts nor ends with whitespace. *)
Lemma strip_spec (s : string) :
  exists pre post,
    blank pre = true /\ blank post = true
    /\ s = (pre ++ PyStr.strip s ++ post)%string
    /\ starts_with_space (PyStr.strip s) = false
    /\ ends_with_space (PyStr.strip s) = false.
Proof.
  destruct (lstrip_spec s) as (pre & Hpre & Hs & Hn).
  destruct (rstrip_spec (PyStr.lstrip s)) as (post & Hpost & Ht & He).
  exists pre, post. unfold PyStr.strip.
  split; [exact Hpre|]. split; [exact Hpost|].
  split; [now rewrite <- Ht|]. split; [|exact He].
  destruct (PyStr.rstrip (PyStr.lstrip s)) as [|c r] eqn:Hr; [reflexivity|].
  rewrite Ht in Hn. exact Hn.
Qed.

(** Nothing is left of a string exactly when it is blank. *)
Lemma strip_truthy (s : string) :
  PyStr.truthy (PyStr.strip s) = negb (blank s).
Proof.
  destruct (strip_spec s) as (pre & post & Hpre & Hpost & Hs & Hn & He).
  rewrite Hs at 2. rewrite !blank_append, Hpre, Hpost, andb_true_r. simpl.
  destruct (PyStr.strip s) as [|c r]; [reflexivity|].
  simpl in *. now rewrite Hn.
Qed.

(** Every display field of a record that the extractor produces is free of
    leading and trailing whitespace. *)
Theorem parse_order_row_fields_stripped
    (w : RowWorld) (row : Tr) (fs fs' : FS) (temp : gmap string pyval)
    (key text : string) :
  parse_order_row w row fs = (Ok temp, fs') ->
  key <> "url" ->
  temp !! key = Some (PStr text) ->
  starts_with_space text = false /\ ends_with_space text = false.
Proof.
  intros H Hkey Hget.
  assert (Hstrip : forall s, text = PyStr.strip s ->
                             starts_with_space text = false
                             /\ ends_with_space text = false).
  { intros s ->. destruct (strip_spec s) as (? & ? & _ & _ & _ & ? & ?).
    auto. }
  assert (Hfields : exists c0 c1 c2 c3 c4,
             display_fields c0 c1 c2 c3 c4 !! key = Some (PStr text)).
  { destruct (tds row) as [|c0 [|c1 [|c2 [|c3 [|c4 l]]]]] eqn:Hc;
      try (rewrite parse_order_row_short in H by (rewrite Hc; simpl; lia);
           discriminate).
    rewrite (parse_order_row_five _ _ _ _ _ _ _ _ _ Hc) in H.
    exists c0, c1, c2, c3, c4.
    destruct (trigger c1) as [action|].
    - destruct (_ !! 1); [|discriminate].
      destruct (fetch_fails _); [discriminate|].
      injection H as <- _. now rewrite lookup_insert_ne in Hget by congruence.
    - injection H as <- _. now rewrite lookup_insert_ne in Hget by congruence. }
  destruct Hfields as (c0 & c1 & c2 & c3 & c4 & Hf).
  unfold display_fields in Hf.
  repeat (apply lookup_insert_Some in Hf as [[_ Hf] | [_ Hf]];
          [injection Hf as <-; eapply Hstrip; reflexivity|]).
  apply lookup_singleton_Some in Hf as [_ Hf].
  injection Hf as <-. eapply Hstrip; reflexivity.
Qed.

Lemma parse_order_row_fields_stripped_witness :
  starts_with_space "2" = false /\ ends_with_space "2" = false.
Proof.
  eapply (parse_order_row_fields_stripped Scenario.w_ok Scenario.row_plain
            ∅ ∅ _ "snumber" "2");
    [vm_compute; reflexivity | discriminate | vm_compute; reflexivity].
Defined.

(** ** The worker pool and the local files *)

(** A property of the local files that every submitted call keeps is kept
    by the pool, whatever the completion order. *)
Lemma pool_run_keeps {A} (P : FS -> Prop) (steps : nat) :
  forall (completion : list nat) (queue : list (nat * M A))
         (futures : list (Future A)) (fs : FS),
    (forall i call, (i, call) ∈ queue -> forall fs0, P fs0 -> P (call fs0).2) ->
    P fs ->
    P (pool_run steps completion queue futures fs).2.
Proof.
  induction steps as [|steps IH]; intros completion queue futures fs Hq Hfs;
    [exact Hfs|].
  cbn [pool_run].
  set (k := hd 0 completion `mod` Nat.min max_workers (length queue)).
  clearbody k.
  destruct (queue !! k) as [[i0 call]|] eqn:Hk; [|exact Hfs].
  pose proof (Hq i0 call (list_elem_of_lookup_2 _ _ _ Hk) fs Hfs) as Hcall.
  destruct (call fs) as [r fs'] eqn:Hc. apply IH; [|exact Hcall].
  intros i c Hic. apply (Hq i c).
  rewrite delete_take_drop in Hic.
  rewrite <- (take_drop_middle _ _ _ Hk). set_solver.
Qed.

Lemma executor_map_keeps {A B} (P : FS -> Prop) (fn : nat -> A -> M B)
    (iterable : list A) (completion : list nat) (fs : FS) :
  (forall i a fs0, iterable !! i = Some a -> P fs0 -> P (fn i a fs0).2) ->
  P fs ->
  P (executor_map fn iterable completion fs).2.
Proof.
  intros Hfn Hfs. unfold executor_map.
  pose proof (pool_run_keeps P (length iterable) completion
                (imap (fun i item => (i, fn i item)) iterable)
                (replicate (length iterable) Pending) fs) as Hpool.
  destruct (pool_run _ _ _ _ fs) as [futures fs'] eqn:Hrun. simpl in *.
  apply Hpool; [|exact Hfs].
  intros i call Hin fs0 H0.
  apply list_elem_of_lookup in Hin as [j Hj].
  rewrite list_lookup_imap in Hj.
  destruct (iterable !! j) as [a|] eqn:Ha; [|discriminate].
  simpl in Hj. injection Hj as <- <-. now apply (Hfn j a).
Qed.

(** [list(...)] raises the exception of the first future, in submission
    order, that holds one. *)
Lemma results_first_raise {A B} (l : list A) :
  forall (value_of : nat -> A -> result B) (i : nat) (a : A) (e : exn),
    l !! i = Some a -> value_of i a = Raise e ->
    (forall j b, j < i -> l !! j = Some b -> exists r, value_of j b = Ok r) ->
    results (imap (fun i a => Done (value_of i a)) l) = Raise e.
Proof.
  induction l as [|a0 l IH]; intros value_of i a e Hi He Hbefore;
    [discriminate|].
  rewrite imap_cons. cbn [results].
  change (imap ((fun i a => Done (value_of i a)) ∘ S) l)
    with (imap (fun i a => Done ((value_of ∘ S) i a)) l).
  destruct i as [|i].
  - simpl in Hi. injection Hi as ->. now rewrite He.
  - destruct (Hbefore 0 a0 ltac:(lia) eq_refl) as [r0 ->].
    rewrite (IH (value_of ∘ S) i a e Hi He); [reflexivity|].
    intros j b Hj Hb. apply (Hbefore (S j) b); [lia | exact Hb].
Qed.

(** ** The case-detail resolver *)

(** The resolver answers "no case" in exactly three situations: the lookup
    fails in transport, its status is rejected, or the page has fewer than
    two headings.  In each of them the local files are untouched. *)
Theorem get_case_details_no_case
    (net : Net) (ctype regno regyr japtcha : string) (fs : FS) :
  ((get_case_details net ctype regno regyr japtcha fs).1 = Ok None
   <-> match page_response (net ctype regno regyr japtcha) with
       | PageHttp true soup => length (h5s soup) < 2
       | _ => True
       end)
  /\ ((get_case_details net ctype regno regyr japtcha fs).1 = Ok None ->
      (get_case_details net ctype regno regyr japtcha fs).2 = fs).
Proof.
  destruct (page_response (net ctype regno regyr japtcha))
    as [|[] soup] eqn:Hp.
  - rewrite (get_case_details_unreachable net ctype regno regyr japtcha fs
               {| h5s := []; table := None |}) by (now left).
    simpl. tauto.
  - destruct (h5s soup) as [|h0 [|h1 hs]] eqn:Hh.
    + rewrite (get_case_details_few_headings _ _ _ _ _ fs soup Hp)
        by (rewrite Hh; simpl; lia).
      simpl. split; [split; [lia | reflexivity] | reflexivity].
    + rewrite (get_case_details_few_headings _ _ _ _ _ fs soup Hp)
        by (rewrite Hh; simpl; lia).
      simpl. split; [split; [lia | reflexivity] | reflexivity].
    + rewrite (get_case_details_page _ _ _ _ _ fs soup h0 h1 hs Hp Hh).
      simpl length.
      destruct (table soup) as [trs|]; cbv zeta;
        [destruct (results _)|]; simpl;
        (split; [split; [discriminate | lia] | discriminate]).
  - rewrite (get_case_details_unreachable net ctype regno regyr japtcha fs
               soup) by (now right).
    simpl. tauto.
Qed.

(** The exception that leaves the resolver is the one of the first row, in
    table order, whose extraction raises, whatever the order in which the
    extractions finish. *)
Theorem get_case_details_first_failing_row
    (net : Net) (ctype regno regyr japtcha : string) (fs : FS)
    (soup : Soup) (h0 h1 : H5) (hs : list H5) (trs : list Tr)
    (i : nat) (row : Tr) (e : exn) :
  page_response (net ctype regno regyr japtcha) = PageHttp true soup ->
  h5s soup = h0 :: h1 :: hs ->
  table soup = Some trs ->
  drop 1 trs !! i = Some row ->
  extraction (row_world (net ctype regno regyr japtcha) i) row = Raise e ->
  (forall j earlier, j < i -> drop 1 trs !! j = Some earlier ->
     exists record,
       extraction (row_world (net ctype regno regyr japtcha) j) earlier
       = Ok record) ->
  (get_case_details net ctype regno regyr japtcha fs).1 = Raise e.
Proof.
  intros Hp Hh Ht Hi He Hbefore.
  rewrite (get_case_details_page _ _ _ _ _ fs soup h0 h1 hs Hp Hh), Ht.
  cbv zeta. unfold row_values.
  rewrite (results_first_raise (drop 1 trs)
             (fun i row =>
                extraction (row_world (net ctype regno regyr japtcha) i) row)
             i row e Hi He Hbefore).
  reflexivity.
Qed.

Lemma get_case_details_first_failing_row_witness :
  (get_case_details Scenario.net_short_row "CS(COMM)" "1" "2023" "7x3k" ∅).1
  = Raise IndexError.
Proof.
  apply (get_case_details_first_failing_row Scenario.net_short_row
           "CS(COMM)" "1" "2023" "7x3k" ∅
           {| h5s := Scenario.headings;
              table := Some Scenario.rows_with_short |}
           {| h5_text := " A vs B "; h5_spans := [] |}
           {| h5_text := "Status"; h5_spans := ["Pending"; "12-05-2024"] |}
           [] Scenario.rows_with_short 1 Scenario.row_short IndexError);
    try reflexivity.
  intros [|j] earlier Hj Hrow; [|lia].
  simpl in Hrow. injection Hrow as <-. eexists. vm_compute. reflexivity.
Defined.

(** When no stream breaks and the temporary names are free, a case lookup
    leaves the local files exactly as they were, whether it returns a
    record, returns "no case" or raises, and whatever the order in which the
    extractions finish. *)
Theorem get_case_details_restores_files
    (net : Net) (ctype regno regyr japtcha : string) (fs : FS) :
  (forall i,
      stream_intact (row_world (net ctype regno regyr japtcha) i) = true
      /\ fs !! temp_path (row_world (net ctype regno regyr japtcha) i)
         = None) ->
  (get_case_details net ctype regno regyr japtcha fs).2 = fs.
Proof.
  intros Hw.
  destruct (page_response (net ctype regno regyr japtcha))
    as [|[] soup] eqn:Hp;
    try (rewrite (get_case_details_unreachable net ctype regno regyr japtcha
                    fs {| h5s := []; table := None |}) by (now left);
         reflexivity).
  - destruct (h5s soup) as [|h0 [|h1 hs]] eqn:Hh;
      try (rewrite (get_case_details_few_headings _ _ _ _ _ fs soup Hp)
             by (rewrite Hh; simpl; lia); reflexivity).
    rewrite (get_case_details_page _ _ _ _ _ fs soup h0 h1 hs Hp Hh).
    destruct (table soup) as [trs|]; [|reflexivity]. cbv zeta.
    assert (Hfs : (executor_map
                     (fun i row =>
                        parse_order_row
                          (row_world (net ctype regno regyr japtcha) i) row)
                     (drop 1 trs)
                     (completion_order (net ctype regno regyr japtcha))
                     fs).2 = fs).
    { apply (executor_map_keeps (fun fs0 => fs0 = fs)); [|reflexivity].
      intros i row fs0 _ ->.
      destruct (parse_order_row _ row fs) as [r fs'] eqn:Hrow.
      destruct (Hw i) as [Hi Hfree].
      destruct (parse_order_row_files _ _ _ _ _ Hrow Hi) as [-> | ->];
        [reflexivity|].
      simpl. now apply delete_id. }
    destruct (results _); simpl; exact Hfs.
  - rewrite (get_case_details_unreachable net ctype regno regyr japtcha
               fs soup) by (now right). reflexivity.
Qed.

Lemma get_case_details_restores_files_witness :
  (get_case_details Scenario.net_three_rows "CS(COMM)" "1" "2023" "7x3k" ∅).2
  = ∅.
Proof.
  apply (get_case_details_restores_files Scenario.net_three_rows
           "CS(COMM)" "1" "2023" "7x3k" ∅).
  intros i. split; reflexivity.
Defined.

Lemma replace_removes (old new : ascii) (s : string) :
  Ascii.eqb new old = false ->
  occurs old (PyStr.replace old new s) = false.
Proof.
  intros Hne. induction s as [|c s IH]; [reflexivity|]. simpl.
  destruct (Ascii.eqb c old) eqn:Hc; [rewrite Hne | rewrite Hc]; exact IH.
Qed.

Lemma summary_parties (h0 h1 : H5) :
  summary h0 h1 !! "parties"
  = Some (VStr (PyStr.replace PyStr.nbsp PyStr.space
                  (PyStr.strip (h5_text h0)))).
Proof.
  unfold summary. destruct (h5_spans h1) as [|r0 [|r1 rs]];
    rewrite ?lookup_insert_ne by discriminate; apply lookup_insert_eq.
Qed.

(** The parties of a resolved case never contain a non-breaking space. *)
Theorem get_case_details_parties_no_nbsp
    (net : Net) (ctype regno regyr japtcha : string) (fs : FS)
    (data : gmap string value) :
  (get_case_details net ctype regno regyr japtcha fs).1 = Ok (Some data) ->
  exists parties,
    data !! "parties" = Some (VStr parties)
    /\ occurs PyStr.nbsp parties = false.
Proof.
  destruct (page_response (net ctype regno regyr japtcha))
    as [|[] soup] eqn:Hp;
    try (rewrite (get_case_details_unreachable net ctype regno regyr japtcha
                    fs {| h5s := []; table := None |}) by (now left);
         discriminate).
  - destruct (h5s soup) as [|h0 [|h1 hs]] eqn:Hh;
      try (rewrite (get_case_details_few_headings _ _ _ _ _ fs soup Hp)
             by (rewrite Hh; simpl; lia); discriminate).
    rewrite (get_case_details_page _ _ _ _ _ fs soup h0 h1 hs Hp Hh).
    assert (Hnb : occurs PyStr.nbsp
                    (PyStr.replace PyStr.nbsp PyStr.space
                       (PyStr.strip (h5_text h0))) = false)
      by (apply replace_removes; reflexivity).
    destruct (table soup) as [trs|]; cbv zeta.
    + destruct (results _); [|discriminate]. simpl. intros [= <-].
      eexists. split; [|exact Hnb].
      rewrite lookup_insert_ne by discriminate. apply summary_parties.
    + simpl. intros [= <-]. eexists. split; [apply summary_parties | exact Hnb].
  - rewrite (get_case_details_unreachable net ctype regno regyr japtcha
               fs soup) by (now right). discriminate.
Qed.

Lemma get_case_details_parties_no_nbsp_witness :
  exists parties,
    summary {| h5_text := " A vs B "; h5_spans := [] |}
            {| h5_text := "Status"; h5_spans := ["Pending"; "12-05-2024"] |}
      !! "parties" = Some (VStr parties)
    /\ occurs PyStr.nbsp parties = false.
Proof.
  apply (get_case_details_parties_no_nbsp Scenario.net_always
           "CS(COMM)" "1" "2023" "7x3k" ∅).
  reflexivity.
Defined.

(** ** The captcha and the start of the crawl *)

(** The crawl starts exactly when the captcha page is fetched, has its
    audio link, and the link's text is not blank; it then runs with the
    stripped text as captcha.  In every other case the program ends at once:
    no probe is made and nothing is stored. *)
Theorem program_starts_iff_captcha_usable
    (r : CaptchaResponse) (net : Net) (n : nat) (fs : FS)
    (collection : Mongo) :
  program r net n fs collection
  = match r with
    | CaptchaHttp true (Some text) =>
        if blank text then Finished fs collection
        else run REQUIRED_CASE_TYPES (get_case_details net)
                 (PyStr.strip text) n
                 (Probing (cursor_at FROM_YEAR "RFA(OS)(COMM)"
                                     (tl REQUIRED_CASE_TYPES) 1 0)
                          fs collection)
    | _ => Finished fs collection
    end.
Proof.
  unfold program, main.
  destruct r as [|[] [text|]];
    try (cbn; now rewrite run_Finished).
  change (get_captcha (CaptchaHttp true (Some text)) fs)
    with (Ok (Some (PyStr.strip text)), fs).
  cbn [crawl default]. rewrite strip_truthy.
  destruct (blank text); cbn [negb]; [apply run_Finished | reflexivity].
Qed.

(** ** The uploader and the archive *)

Lemma occurs_append (c : ascii) (s1 s2 : string) :
  occurs c (s1 ++ s2) = occurs c s1 || occurs c s2.
Proof.
  induction s1 as [|d s1 IH]; [reflexivity|].
  change (occurs c (String d (s1 ++ s2))
          = occurs c (String d s1) || occurs c s2).
  simpl. rewrite IH. apply orb_assoc.
Qed.

(** The blob of a fetched document is named after the file alone,
    [<uuid>.pdf], without the directory. *)
Theorem blob_name_of_temp_path (w : RowWorld) :
  occurs slash (uuid_hex w) = false ->
  blob_name_of (temp_path w) = (uuid_hex w ++ ".pdf")%string.
Proof.
  intros Hw. unfold blob_name_of, temp_path.
  change (PDF_DIR ++ "/" ++ uuid_hex w ++ ".pdf")%string
    with (PDF_DIR ++ String slash (uuid_hex w ++ ".pdf"))%string.
  apply split_last. rewrite occurs_append, Hw. reflexivity.
Qed.

Lemma blob_name_of_temp_path_witness :
  blob_name_of (temp_path Scenario.w_ok) = "0f3a.pdf".
Proof.
  apply (blob_name_of_temp_path Scenario.w_ok). reflexivity.
Defined.

(** The uploader touches no blob other than the one named after its file,
    whichever of its calls fails. *)
Theorem upload_touches_only_its_blob
    (az : Azure) (file_path : string) (fs : FS) (blobs : Archive)
    (name : string) :
  name <> blob_name_of file_path ->
  (upload_pdf_to_azure_in az file_path fs blobs).2 !! name = blobs !! name.
Proof.
  intros Hne. unfold upload_pdf_to_azure_in.
  destruct (connects az); [|reflexivity].
  destruct (exists_answers az); [|reflexivity]. cbn [negb].
  destruct (blobs !! blob_name_of file_path) eqn:Hb;
    [destruct (delete_works az); [|reflexivity]|];
    (destruct (fs !! file_path);
     [destruct (upload_works az)|]; cbn [snd];
     rewrite ?lookup_insert_ne by congruence;
     rewrite ?lookup_delete_ne by congruence; reflexivity).
Qed.

(** When the uploader returns a URL, it is the URL of the blob named after
    the file, and that blob holds the bytes of the local file. *)
Theorem upload_success_stores_file
    (az : Azure) (file_path : string) (fs : FS) (blobs : Archive)
    (url : string) :
  (upload_pdf_to_azure_in az file_path fs blobs).1 = Some url ->
  url = url_of az (blob_name_of file_path)
  /\ exists data,
       fs !! file_path = Some data
       /\ (upload_pdf_to_azure_in az file_path fs blobs).2
            !! blob_name_of file_path = Some data.
Proof.
  unfold upload_pdf_to_azure_in.
  destruct (connects az); [|discriminate].
  destruct (exists_answers az); [|discriminate]. cbn [negb].
  destruct (blobs !! blob_name_of file_path) eqn:Hb;
    [destruct (delete_works az); [|discriminate]|];
    (destruct (fs !! file_path) as [data|]; [|discriminate];
     destruct (upload_works az); [|discriminate];
     cbn [fst snd]; intros [= <-]; split; [reflexivity|];
     exists data; split; [reflexivity | apply lookup_insert_eq]).
Qed.

(** Uploading the same file a second time returns the same URL and leaves
    the archive as the first upload left it: one blob of that name, holding
    the file. *)
Theorem upload_twice_is_upload_once
    (az : Azure) (file_path : string) (fs : FS) (blobs : Archive) :
  connects az = true -> exists_answers az = true ->
  delete_works az = true -> upload_works az = true ->
  is_Some (fs !! file_path) ->
  upload_pdf_to_azure_in az file_path fs
    (upload_pdf_to_azure_in az file_path fs blobs).2
  = upload_pdf_to_azure_in az file_path fs blobs.
Proof.
  intros Hc He Hd Hu [data Hf]. unfold upload_pdf_to_azure_in.
  rewrite Hc, He, Hd, Hu, Hf. cbn [negb].
  destruct (blobs !! blob_name_of file_path) eqn:Hb; cbn [snd];
    rewrite lookup_insert_eq;
    rewrite insert_delete_eq, insert_insert_eq; rewrite ?insert_delete_eq;
    reflexivity.
Qed.

Lemma upload_touches_only_its_blob_witness :
  (upload_pdf_to_azure_in
     {| connects := true; exists_answers := true; delete_works := true;
        upload_works := true;
        url_of := fun name => ("https://archive.example/" ++ name)%string |}
     "pdf/0f3a.pdf" {[ "pdf/0f3a.pdf" := "%PDF-1.4" ]}
     {[ "0f3a.pdf" := "old"; "77aa.pdf" := "other" ]}).2 !! "77aa.pdf"
  = ({[ "0f3a.pdf" := "old"; "77aa.pdf" := "other" ]} : Archive)
      !! "77aa.pdf".
Proof.
  apply (upload_touches_only_its_blob
           {| connects := true; exists_answers := true; delete_works := true;
              upload_works := true;
              url_of := fun name => ("https://archive.example/" ++ name)%string |}
           "pdf/0f3a.pdf" {[ "pdf/0f3a.pdf" := "%PDF-1.4" ]}
           {[ "0f3a.pdf" := "old"; "77aa.pdf" := "other" ]} "77aa.pdf").
  vm_compute. discriminate.
Defined.

Lemma upload_success_stores_file_witness :
  "https://archive.example/0f3a.pdf"
  = ("https://archive.example/" ++ blob_name_of "pdf/0f3a.pdf")%string
  /\ exists data,
       ({[ "pdf/0f3a.pdf" := "%PDF-1.4" ]} : FS) !! "pdf/0f3a.pdf" = Some data
       /\ (upload_pdf_to_azure_in
             {| connects := true; exists_answers := true;
                delete_works := true; upload_works := true;
                url_of := fun name =>
                            ("https://archive.example/" ++ name)%string |}
             "pdf/0f3a.pdf" {[ "pdf/0f3a.pdf" := "%PDF-1.4" ]}
             {[ "0f3a.pdf" := "old" ]}).2 !! blob_name_of "pdf/0f3a.pdf"
          = Some data.
Proof.
  apply (upload_success_stores_file
           {| connects := true; exists_answers := true; delete_works := true;
              upload_works := true;
              url_of := fun name => ("https://archive.example/" ++ name)%string |}
           "pdf/0f3a.pdf" {[ "pdf/0f3a.pdf" := "%PDF-1.4" ]}
           {[ "0f3a.pdf" := "old" ]} "https://archive.example/0f3a.pdf").
  vm_compute. reflexivity.
Defined.

Lemma upload_twice_is_upload_once_witness :
  upload_pdf_to_azure_in
    {| connects := true; exists_answers := true; delete_works := true;
       upload_works := true;
       url_of := fun name => ("https://archive.example/" ++ name)%string |}
    "pdf/0f3a.pdf" {[ "pdf/0f3a.pdf" := "%PDF-1.4" ]}
    (upload_pdf_to_azure_in
       {| connects := true; exists_answers := true; delete_works := true;
          upload_works := true;
          url_of := fun name => ("https://archive.example/" ++ name)%string |}
       "pdf/0f3a.pdf" {[ "pdf/0f3a.pdf" := "%PDF-1.4" ]}
       {[ "0f3a.pdf" := "old" ]}).2
  = upload_pdf_to_azure_in
      {| connects := true; exists_answers := true; delete_works := true;
         upload_works := true;
         url_of := fun name => ("https://archive.example/" ++ name)%string |}
      "pdf/0f3a.pdf" {[ "pdf/0f3a.pdf" := "%PDF-1.4" ]}
      {[ "0f3a.pdf" := "old" ]}.
Proof.
  apply (upload_twice_is_upload_once
           {| connects := true; exists_answers := true; delete_works := true;
              upload_works := true;
              url_of := fun name => ("https://archive.example/" ++ name)%string |}
           "pdf/0f3a.pdf" {[ "pdf/0f3a.pdf" := "%PDF-1.4" ]}
           {[ "0f3a.pdf" := "old" ]});
    try reflexivity.
  vm_compute. eauto.
Defined.

(** ** The enumeration: bounds, order of the probes, and the store *)

Section Bounds.

Variable catalog : list string.
Variable resolve : string -> string -> string -> string ->
                   M (option (gmap string value)).
Variable captcha_code : string.
Variable from_year : Z.

Lemma enter_year_ok (y : Z) (fs : FS) (collection : Mongo) :
  (y <= from_year)%Z ->
  match enter_year catalog y fs collection with
  | Probing c _ _ => cursor_ok catalog from_year c
  | _ => True
  end.
Proof.
  intros Hy. unfold enter_year. destruct (Z.leb_spec 2000 y); [|exact I].
  destruct catalog as [|t ts] eqn:Hcat; [exact I|].
  unfold cursor_ok. simpl. repeat split; try lia.
  exists []. reflexivity.
Qed.

Lemma advance_ok (c : Cursor) (fs : FS) (collection : Mongo) :
  cursor_ok catalog from_year c ->
  match advance catalog c fs collection with
  | Probing c' _ _ => cursor_ok catalog from_year c'
  | _ => True
  end.
Proof.
  intros (Hy & (earlier & Hcat) & Hno & Hlt & H20). unfold advance.
  destruct (later_types c) as [|t ts] eqn:Hl.
  - apply enter_year_ok. lia.
  - unfold cursor_ok. simpl. repeat split; try lia.
    exists (earlier ++ [case_type c])%list. now rewrite <- app_assoc.
Qed.

Lemma next_ok (s : Crawl) :
  match s with
  | Probing c _ _ => cursor_ok catalog from_year c
  | _ => True
  end ->
  match next catalog resolve captcha_code s with
  | Probing c _ _ => cursor_ok catalog from_year c
  | _ => True
  end.
Proof.
  destruct s as [c fs collection| |]; [|exact (fun H => H)..].
  intros Hc. cbn [next]. unfold step.
  destruct (resolve _ _ _ _ fs) as [[r|e] fs']; [|exact I].
  destruct Hc as (Hy & Hcat & Hno & Hlt & H20).
  assert (Hstep : forall misses collection',
             misses <= S (continuous_no_case c) ->
             match (if (misses =? 20)%nat
                    then advance catalog c fs' collection'
                    else Probing
                           {| year := year c; case_type := case_type c;
                              later_types := later_types c;
                              case_no := case_no c + 1;
                              continuous_no_case := misses |}
                           fs' collection') with
             | Probing c' _ _ => cursor_ok catalog from_year c'
             | _ => True
             end).
  { intros misses collection' Hm.
    destruct (Nat.eqb_spec misses 20).
    - apply advance_ok. unfold cursor_ok. auto.
    - unfold cursor_ok. simpl. repeat split; try lia. exact Hcat. }
  destruct r as [data|]; [destruct (falsy (Some data))|];
    apply Hstep; lia.
Qed.

Lemma run_ok (n : nat) (s : Crawl) :
  match s with
  | Probing c _ _ => cursor_ok catalog from_year c
  | _ => True
  end ->
  match run catalog resolve captcha_code n s with
  | Probing c _ _ => cursor_ok catalog from_year c
  | _ => True
  end.
Proof.
  revert s. induction n as [|n IH]; intros s Hs; [exact Hs|].
  cbn [run]. apply IH, next_ok, Hs.
Qed.

End Bounds.

(** Whatever the resolver answers, every probe of a crawl is for a year
    between 2000 and the start year and for a case type of the catalog, in
    catalog order; its case number is at least 1, and the miss counter is
    below both the case number and twenty. *)
Theorem crawl_stays_in_bounds
    (catalog : list string)
    (resolve : string -> string -> string -> string ->
               M (option (gmap string value)))
    (captcha : option string) (from_year : Z) (n : nat)
    (fs fs' : FS) (collection collection' : Mongo) (c : Cursor) :
  run catalog resolve (default "" captcha) n
      (crawl catalog from_year captcha fs collection)
  = Probing c fs' collection' ->
  cursor_ok catalog from_year c.
Proof.
  intros Hrun.
  pose proof (run_ok catalog resolve (default "" captcha) from_year n
                (crawl catalog from_year captcha fs collection)) as Hok.
  rewrite Hrun in Hok. apply Hok.
  unfold crawl. destruct captcha as [code|]; [|exact I].
  destruct (PyStr.truthy code); [|exact I].
  apply enter_year_ok. lia.
Qed.

Lemma crawl_stays_in_bounds_witness :
  cursor_ok ["CS(COMM)"; "O.M.P. (COMM)"] 2023
            (cursor_at 2023 "O.M.P. (COMM)" [] 1 0).
Proof.
  apply (crawl_stays_in_bounds ["CS(COMM)"; "O.M.P. (COMM)"]
           (get_case_details Scenario.net_down) (Some "7x3k") 2023 20
           ∅ ∅ [] []).
  vm_compute. reflexivity.
Defined.

Section Probes.

Variable catalog : list string.
Variable resolve : string -> string -> string -> string ->
                   M (option (gmap string value)).
Variable captcha_code : string.

Lemma probes_S (n : nat) (s : Crawl) :
  probes catalog resolve captcha_code (S n) s
  = (probes catalog resolve captcha_code n s
     ++ match run catalog resolve captcha_code n s with
        | Probing c _ _ => [c]
        | _ => []
        end)%list.
Proof.
  revert s. induction n as [|n IH]; intros s.
  - destruct s; reflexivity.
  - destruct s as [c fs collection|fs collection|e fs collection].
    + change (probes catalog resolve captcha_code (S (S n))
                     (Probing c fs collection))
        with (c :: probes catalog resolve captcha_code (S n)
                     (next catalog resolve captcha_code
                           (Probing c fs collection))).
      rewrite IH. reflexivity.
    + cbn [probes]. now rewrite run_Finished.
    + cbn [probes]. now rewrite run_Crashed.
Qed.

Lemma probes_add (a b : nat) (s : Crawl) :
  probes catalog resolve captcha_code (a + b) s
  = (probes catalog resolve captcha_code a s
     ++ probes catalog resolve captcha_code b
          (run catalog resolve captcha_code a s))%list.
Proof.
  revert s. induction a as [|a IH]; intros s; [reflexivity|].
  destruct s as [c fs collection|fs collection|e fs collection].
  - cbn [Nat.add probes run]. now rewrite IH.
  - cbn [Nat.add probes]. rewrite run_Finished. now destruct b.
  - cbn [Nat.add probes]. rewrite run_Crashed. now destruct b.
Qed.

(** The cursors of an inner loop, as long as fewer than twenty case numbers
    have been missed. *)
Lemma inner_loop_probes (y : Z) (t : string) (ts : list string)
    (found : nat -> bool) (fs : FS) (collection : Mongo) (n : nat) :
  answers resolve captcha_code t y found n ->
  misses_upto found n < 20 ->
  probes catalog resolve captcha_code (S n)
         (Probing (cursor_at y t ts 1 0) fs collection)
  = (fun k => cursor_at y t ts (S k) (misses_upto found k)) <$> seq 0 (S n).
Proof.
  induction n as [|n IH]; intros Hans Hlt; [reflexivity|].
  rewrite probes_S, IH.
  - destruct (inner_loop_run catalog resolve captcha_code y t ts found
                (S n) fs collection Hans Hlt) as (fs' & coll' & ->).
    rewrite (seq_S (S n)), fmap_app. reflexivity.
  - intros k Hk. apply Hans. lia.
  - pose proof (misses_upto_mono found n (S n)). lia.
Qed.

End Probes.

(** Within the inner loop of a case type, the case numbers are probed in
    ascending order from 1 without a gap, all for that type and year, as
    long as fewer than twenty of them have been missed. *)
Theorem inner_loop_probes_ascend
    (catalog : list string)
    (resolve : string -> string -> string -> string ->
               M (option (gmap string value)))
    (captcha_code : string) (y : Z) (t : string) (ts : list string)
    (found : nat -> bool) (fs : FS) (collection : Mongo) (n : nat) :
  answers resolve captcha_code t y found n ->
  misses_upto found n < 20 ->
  query_of <$> probes catalog resolve captcha_code (S n)
                      (Probing (cursor_at y t ts 1 0) fs collection)
  = (fun k => (y, t, k)) <$> seq 1 (S n).
Proof.
  intros Hans Hlt.
  rewrite (inner_loop_probes catalog resolve captcha_code y t ts found fs
             collection n Hans Hlt).
  rewrite <- list_fmap_compose, <- (fmap_S_seq 0), <- list_fmap_compose.
  reflexivity.
Qed.

Lemma inner_loop_probes_ascend_witness :
  query_of <$> probes REQUIRED_CASE_TYPES
                      (get_case_details (Scenario.net_only 2)) "7x3k" 4
                      (Probing (cursor_at 2023 "CS(COMM)" [] 1 0) ∅ [])
  = (fun k => (2023%Z, "CS(COMM)", k)) <$> seq 1 4.
Proof.
  apply (inner_loop_probes_ascend REQUIRED_CASE_TYPES
           (get_case_details (Scenario.net_only 2)) "7x3k" 2023 "CS(COMM)"
           [] (fun k => k =? 2)%nat ∅ [] 3).
  - intros k _. destruct (Nat.eqb_spec k 2) as [->|Hne].
    + apply net_only_hit.
    + now apply net_only_miss.
  - simpl. lia.
Defined.

(** The store only grows: what it holds after some probes is still there,
    in the same place, after any further probes. *)
Lemma collection_of_next
    (catalog : list string)
    (resolve : string -> string -> string -> string ->
               M (option (gmap string value)))
    (captcha_code : string) (s : Crawl) :
  collection_of s `prefix_of`
    collection_of (next catalog resolve captcha_code s).
Proof.
  destruct s as [c fs collection| |]; [|reflexivity..].
  cbn [next collection_of]. unfold step.
  destruct (resolve _ _ _ _ fs) as [[[data|]|e] fs']; [| |reflexivity].
  - unfold falsy, save_to_mongodb.
    destruct (bool_decide (data = ∅));
      (destruct (Nat.eqb _ 20);
       [rewrite collection_of_advance|]; cbn [collection_of];
       try reflexivity; now apply prefix_app_r).
  - destruct (Nat.eqb _ 20);
      [rewrite collection_of_advance|]; reflexivity.
Qed.

Theorem store_is_append_only
    (catalog : list string)
    (resolve : string -> string -> string -> string ->
               M (option (gmap string value)))
    (captcha_code : string) (s : Crawl) (n m : nat) :
  collection_of (run catalog resolve captcha_code n s) `prefix_of`
    collection_of (run catalog resolve captcha_code (n + m) s).
Proof.
  induction m as [|m IH].
  - now rewrite Nat.add_0_r.
  - rewrite Nat.add_succ_r, run_S. etrans; [exact IH|].
    apply collection_of_next.
Qed.

(** ** A crawl in which no case exists *)

Section AllMiss.

Variable catalog : list string.
Variable resolve : string -> string -> string -> string ->
                   M (option (gmap string value)).
Variable captcha_code : string.

Hypothesis all_miss : forall t y k, miss_at resolve captcha_code t y k.

Lemma all_miss_run (y : Z) (t : string) (ts : list string) (fs : FS)
    (collection : Mongo) (n : nat) :
  n < 20 ->
  exists fs',
    run catalog resolve captcha_code n
        (Probing (cursor_at y t ts 1 0) fs collection)
    = Probing (cursor_at y t ts (S n) n) fs' collection.
Proof.
  induction n as [|n IH]; intros Hn; [now exists fs|].
  destruct IH as [fs1 Hrun]; [lia|].
  rewrite run_S, Hrun. cbn [next].
  destruct (all_miss t y (S n) fs1) as (r & fs2 & Hr & Hfalsy).
  rewrite (step_miss catalog resolve captcha_code
             (cursor_at y t ts (S n) n) fs1 fs2 collection r Hr Hfalsy).
  cbn [continuous_no_case cursor_at year case_type later_types case_no].
  destruct (Nat.eqb_spec (S n) 20); [lia|].
  exists fs2. now rewrite Nat.add_1_r.
Qed.

Lemma all_miss_exit (y : Z) (t : string) (ts : list string) (fs : FS)
    (collection : Mongo) :
  exists fs',
    run catalog resolve captcha_code 20
        (Probing (cursor_at y t ts 1 0) fs collection)
    = advance catalog (cursor_at y t ts 20 19) fs' collection.
Proof.
  destruct (all_miss_run y t ts fs collection 19) as [fs1 Hrun]; [lia|].
  rewrite run_S, Hrun. cbn [next].
  destruct (all_miss t y 20 fs1) as (r & fs2 & Hr & Hfalsy).
  rewrite (step_miss catalog resolve captcha_code
             (cursor_at y t ts 20 19) fs1 fs2 collection r Hr Hfalsy).
  exists fs2. reflexivity.
Qed.

Lemma all_miss_probes (y : Z) (t : string) (ts : list string) (fs : FS)
    (collection : Mongo) :
  query_of <$> probes catalog resolve captcha_code 20
                      (Probing (cursor_at y t ts 1 0) fs collection)
  = (fun k => (y, t, k)) <$> seq 1 20.
Proof.
  rewrite (inner_loop_probes catalog resolve captcha_code y t ts
             (fun _ => false) fs collection 19).
  - rewrite <- list_fmap_compose, <- (fmap_S_seq 0), <- list_fmap_compose.
    reflexivity.
  - intros k _. apply all_miss.
  - vm_compute. lia.
Qed.

(** The loop over the case types of one year. *)
Lemma all_miss_types (y : Z) (ts : list string) :
  forall (t : string) (fs : FS) (collection : Mongo),
    exists fs',
      run catalog resolve captcha_code (20 * length (t :: ts))
          (Probing (cursor_at y t ts 1 0) fs collection)
      = enter_year catalog (y - 1) fs' collection
      /\ query_of <$> probes catalog resolve captcha_code
                             (20 * length (t :: ts))
                             (Probing (cursor_at y t ts 1 0) fs collection)
         = (t' ← t :: ts; (fun k => (y, t', k)) <$> seq 1 20).
Proof.
  induction ts as [|t1 ts IH]; intros t fs collection.
  - destruct (all_miss_exit y t [] fs collection) as [fs1 Hrun].
    exists fs1. change (20 * length [t]) with 20. split; [exact Hrun|].
    rewrite all_miss_probes. vm_compute. reflexivity.
  - destruct (all_miss_exit y t (t1 :: ts) fs collection) as [fs1 Hrun].
    destruct (IH t1 fs1 collection) as (fs2 & Hrun2 & Hprobes2).
    exists fs2.
    replace (20 * length (t :: t1 :: ts))
      with (20 + 20 * length (t1 :: ts)) by (simpl; lia).
    rewrite run_add, probes_add, Hrun, fmap_app, all_miss_probes.
    split; [exact Hrun2|].
    change (advance catalog (cursor_at y t (t1 :: ts) 20 19) fs1 collection)
      with (Probing (cursor_at y t1 ts 1 0) fs1 collection).
    rewrite Hprobes2. reflexivity.
Qed.

End AllMiss.

Lemma years_from_lt (y : Z) : (y < 2000)%Z -> years_from y = [].
Proof.
  intros Hy. unfold years_from.
  replace (Z.to_nat (y - 1999)) with 0 by lia. reflexivity.
Qed.

Lemma years_from_ge (y : Z) :
  (2000 <= y)%Z -> years_from y = y :: years_from (y - 1).
Proof.
  intros Hy. unfold years_from.
  replace (Z.to_nat (y - 1999)) with (S (Z.to_nat (y - 1 - 1999))) by lia.
  cbn [seq fmap list_fmap]. f_equal; [lia|].
  rewrite <- fmap_S_seq, <- list_fmap_compose.
  apply list_fmap_ext. intros i k _. simpl. lia.
Qed.

Lemma sweep_nil (y : Z) : sweep [] y = [].
Proof.
  unfold sweep. induction (years_from y) as [|y0 l IH]; [reflexivity|].
  cbn. exact IH.
Qed.

Lemma enter_year_cons (catalog : list string) (t : string)
    (ts : list string) (y : Z) (fs : FS) (collection : Mongo) :
  catalog = t :: ts -> (2000 <= y)%Z ->
  enter_year catalog y fs collection
  = Probing (cursor_at y t ts 1 0) fs collection.
Proof.
  intros -> Hy. unfold enter_year.
  destruct (Z.leb_spec 2000 y); [reflexivity | lia].
Qed.

Lemma enter_year_lt (catalog : list string) (y : Z) (fs : FS)
    (collection : Mongo) :
  (y < 2000)%Z -> enter_year catalog y fs collection = Finished fs collection.
Proof.
  intros Hy. unfold enter_year.
  destruct (Z.leb_spec 2000 y); [lia | reflexivity].
Qed.

Lemma all_miss_years
    (catalog : list string)
    (resolve : string -> string -> string -> string ->
               M (option (gmap string value)))
    (captcha_code : string)
    (all_miss : forall t y k, miss_at resolve captcha_code t y k)
    (d : nat) :
  forall (y : Z) (fs : FS) (collection : Mongo),
    Z.to_nat (y - 1999) = d ->
    exists fs',
      run catalog resolve captcha_code (20 * length catalog * d)
          (enter_year catalog y fs collection)
      = Finished fs' collection
      /\ query_of <$> probes catalog resolve captcha_code
                             (20 * length catalog * d)
                             (enter_year catalog y fs collection)
         = sweep catalog y.
Proof.
  assert (Hcases : catalog = [] \/ exists t ts, catalog = t :: ts)
    by (destruct catalog; eauto).
  destruct Hcases as [-> | (t & ts & Hcat)].
  { intros y fs collection _. exists fs. rewrite sweep_nil.
    unfold enter_year. destruct (2000 <=? y)%Z; simpl; split; reflexivity. }
  induction d as [|d IH]; intros y fs collection Hd.
  - exists fs. rewrite Nat.mul_0_r, enter_year_lt by lia.
    unfold sweep. rewrite years_from_lt by lia. split; reflexivity.
  - assert (Hy : (2000 <= y)%Z) by lia.
    rewrite (enter_year_cons catalog t ts y fs collection Hcat Hy).
    destruct (all_miss_types catalog resolve captcha_code all_miss y ts t
                fs collection) as (fs1 & Hrun1 & Hprobes1).
    rewrite <- Hcat in Hrun1, Hprobes1.
    destruct (IH (y - 1)%Z fs1 collection) as (fs2 & Hrun2 & Hprobes2);
      [lia|].
    exists fs2.
    replace (20 * length catalog * S d)
      with (20 * length catalog + 20 * length catalog * d) by lia.
    rewrite run_add, probes_add, fmap_app.
    rewrite Hrun1, Hprobes1, Hprobes2. split; [exact Hrun2|].
    unfold sweep. rewrite (years_from_ge y Hy). reflexivity.
Qed.

(** When no probe finds a case, the crawl makes exactly twenty probes, with
    case numbers 1 to 20, for each case type of the catalog in catalog
    order, for each year from the start year down to 2000; it then leaves
    the loops, and the store is as it was. *)
Theorem all_miss_crawl_sweeps
    (catalog : list string)
    (resolve : string -> string -> string -> string ->
               M (option (gmap string value)))
    (code : string) (from_year : Z) (fs : FS) (collection : Mongo) :
  PyStr.truthy code = true ->
  (forall t y k, miss_at resolve code t y k) ->
  exists fs',
    run catalog resolve code
        (20 * length catalog * Z.to_nat (from_year - 1999))
        (crawl catalog from_year (Some code) fs collection)
    = Finished fs' collection
    /\ query_of <$> probes catalog resolve code
                           (20 * length catalog
                            * Z.to_nat (from_year - 1999))
                           (crawl catalog from_year (Some code) fs collection)
       = sweep catalog from_year.
Proof.
  intros Hcode Hmiss. unfold crawl. rewrite Hcode.
  now apply all_miss_years.
Qed.

Lemma all_miss_crawl_sweeps_witness :
  exists fs',
    run ["CS(COMM)"; "O.M.P. (COMM)"] (get_case_details Scenario.net_down)
        "7x3k" (20 * length ["CS(COMM)"; "O.M.P. (COMM)"]
                * Z.to_nat (2001 - 1999))
        (crawl ["CS(COMM)"; "O.M.P. (COMM)"] 2001 (Some "7x3k") ∅ [])
    = Finished fs' []
    /\ query_of <$> probes ["CS(COMM)"; "O.M.P. (COMM)"]
                           (get_case_details Scenario.net_down) "7x3k"
                           (20 * length ["CS(COMM)"; "O.M.P. (COMM)"]
                            * Z.to_nat (2001 - 1999))
                           (crawl ["CS(COMM)"; "O.M.P. (COMM)"] 2001
                                  (Some "7x3k") ∅ [])
       = sweep ["CS(COMM)"; "O.M.P. (COMM)"] 2001.
Proof.
  apply (all_miss_crawl_sweeps ["CS(COMM)"; "O.M.P. (COMM)"]
           (get_case_details Scenario.net_down) "7x3k" 2001 ∅ []).
  - reflexivity.
  - intros t y k. apply net_down_miss.
Defined.

(** ** The shape of a resolved case *)

Lemma summary_keys (h0 h1 : H5) :
  dom (summary h0 h1)
  = ({[ "parties"; "status"; "next_date"; "orders" ]} : gset string).
Proof.
  unfold summary. destruct (h5_spans h1) as [|r0 [|r1 rs]];
    rewrite !dom_insert_L, dom_singleton_L; set_solver.
Qed.

(** The resolver on a page that resolves: the summary of its two headings,
    with the orders of its table if it has one. *)
Lemma get_case_details_some
    (net : Net) (ctype regno regyr japtcha : string) (fs : FS)
    (data : gmap string value) :
  (get_case_details net ctype regno regyr japtcha fs).1 = Ok (Some data) ->
  exists soup h0 h1 hs,
    page_response (net ctype regno regyr japtcha) = PageHttp true soup
    /\ h5s soup = h0 :: h1 :: hs
    /\ (data = summary h0 h1
        \/ exists orders, data = <["orders" := VList orders]> (summary h0 h1)).
Proof.
  destruct (page_response (net ctype regno regyr japtcha))
    as [|[] soup] eqn:Hp;
    try (rewrite (get_case_details_unreachable net ctype regno regyr japtcha
                    fs {| h5s := []; table := None |}) by (now left);
         discriminate).
  - destruct (h5s soup) as [|h0 [|h1 hs]] eqn:Hh;
      try (rewrite (get_case_details_few_headings _ _ _ _ _ fs soup Hp)
             by (rewrite Hh; simpl; lia); discriminate).
    rewrite (get_case_details_page _ _ _ _ _ fs soup h0 h1 hs Hp Hh).
    intros H. exists soup, h0, h1, hs. split; [reflexivity|].
    split; [exact Hh|].
    destruct (table soup) as [trs|]; cbv zeta in H.
    + destruct (results _) as [orders|]; [|discriminate].
      simpl in H. injection H as <-. right. now exists orders.
    + simpl in H. injection H as <-. now left.
  - rewrite (get_case_details_unreachable net ctype regno regyr japtcha
               fs soup) by (now right). discriminate.
Qed.

(** Every record that the resolver returns has the same four keys;
    [case_info] is not among them, so that the driver adds it as a fifth. *)
Theorem get_case_details_keys
    (net : Net) (ctype regno regyr japtcha : string) (fs : FS)
    (data : gmap string value) :
  (get_case_details net ctype regno regyr japtcha fs).1 = Ok (Some data) ->
  dom data = ({[ "parties"; "status"; "next_date"; "orders" ]} : gset string)
  /\ data !! "case_info" = None.
Proof.
  intros H.
  destruct (get_case_details_some _ _ _ _ _ _ _ H)
    as (soup & h0 & h1 & hs & _ & _ & Hd).
  assert (Hdom : dom data
                 = ({[ "parties"; "status"; "next_date"; "orders" ]}
                    : gset string)).
  { destruct Hd as [-> | [orders ->]]; [apply summary_keys|].
    rewrite dom_insert_L, summary_keys. set_solver. }
  split; [exact Hdom|].
  apply not_elem_of_dom. rewrite Hdom. set_solver.
Qed.

Lemma get_case_details_keys_witness :
  dom (summary {| h5_text := " A vs B "; h5_spans := [] |}
               {| h5_text := "Status";
                  h5_spans := ["Pending"; "12-05-2024"] |})
  = ({[ "parties"; "status"; "next_date"; "orders" ]} : gset string)
  /\ summary {| h5_text := " A vs B "; h5_spans := [] |}
             {| h5_text := "Status"; h5_spans := ["Pending"; "12-05-2024"] |}
       !! "case_info" = None.
Proof.
  apply (get_case_details_keys Scenario.net_always
           "CS(COMM)" "1" "2023" "7x3k" ∅).
  reflexivity.
Defined.

(** Status and next hearing date of a resolved case are the stripped texts
    of the first two [span]s of the second heading; further [span]s and
    further headings play no part. *)
Theorem get_case_details_status_and_date
    (net : Net) (ctype regno regyr japtcha : string) (fs : FS)
    (soup : Soup) (h0 h1 : H5) (hs : list H5) (r0 r1 : string)
    (rs : list string) (data : gmap string value) :
  page_response (net ctype regno regyr japtcha) = PageHttp true soup ->
  h5s soup = h0 :: h1 :: hs ->
  h5_spans h1 = r0 :: r1 :: rs ->
  (get_case_details net ctype regno regyr japtcha fs).1 = Ok (Some data) ->
  data !! "status" = Some (VStr (PyStr.strip r0))
  /\ data !! "next_date" = Some (VStr (PyStr.strip r1)).
Proof.
  intros Hp Hh Hs.
  rewrite (get_case_details_page _ _ _ _ _ fs soup h0 h1 hs Hp Hh).
  assert (Hsum : summary h0 h1 !! "status" = Some (VStr (PyStr.strip r0))
                 /\ summary h0 h1 !! "next_date"
                    = Some (VStr (PyStr.strip r1))).
  { unfold summary. rewrite Hs. split.
    - rewrite lookup_insert_ne by discriminate. apply lookup_insert_eq.
    - apply lookup_insert_eq. }
  destruct (table soup) as [trs|]; cbv zeta.
  - destruct (results _); [|discriminate]. simpl. intros [= <-].
    now rewrite !lookup_insert_ne by discriminate.
  - simpl. now intros [= <-].
Qed.

Lemma get_case_details_status_and_date_witness :
  summary {| h5_text := " A vs B "; h5_spans := [] |}
          {| h5_text := "Status"; h5_spans := ["Pending"; "12-05-2024"] |}
    !! "status" = Some (VStr (PyStr.strip "Pending"))
  /\ summary {| h5_text := " A vs B "; h5_spans := [] |}
             {| h5_text := "Status"; h5_spans := ["Pending"; "12-05-2024"] |}
       !! "next_date" = Some (VStr (PyStr.strip "12-05-2024")).
Proof.
  apply (get_case_details_status_and_date Scenario.net_always
           "CS(COMM)" "1" "2023" "7x3k" ∅
           {| h5s := Scenario.headings; table := None |}
           {| h5_text := " A vs B "; h5_spans := [] |}
           {| h5_text := "Status"; h5_spans := ["Pending"; "12-05-2024"] |}
           [] "Pending" "12-05-2024" []);
    reflexivity.
Defined.
